(** * A shallow embedding of the batch pipeline of gallery-preprocessor (main.py)

    The development models the functions [norm], [list_files],
    [get_dimension], [batch_transcode], [single_upscale], [batch_resize],
    [single_compress], [batch_calculate_blurhash] and
    [MainMenu.__handle_error] of [main.py].
    Python strings are [string]s; the filesystem is a map from regular-file
    paths to their sizes plus a set of directories; external processes are an
    oracle that, given the command line and the current files, returns the
    exit code, the captured streams and the files afterwards; Python
    exceptions are the [Raise] outcome of a small state/exception monad. *)

From Stdlib Require Import ZArith String Ascii.
From stdpp Require Import base strings gmap list.

Open Scope string_scope.

(* ================================================================== *)
(** ** Python string primitives *)

Module PyStr.

(** The double-quote character, used by the f-strings that build commands. *)
Definition dq : string := String (ascii_of_nat 34) EmptyString.

Definition slash : ascii := "/"%char.
Definition backslash : ascii := ascii_of_nat 92.

(** [s.split(c)] for a one-character separator. *)
Fixpoint split_go (c : ascii) (s : string) (cur : string) : list string :=
  match s with
  | EmptyString => [cur]
  | String a s' =>
      if Ascii.eqb a c then cur :: split_go c s' EmptyString
      else split_go c s' (cur +:+ String a EmptyString)
  end.
Definition split (c : ascii) (s : string) : list string := split_go c s EmptyString.

(** [sep.join(l)]. *)
Fixpoint join (sep : string) (l : list string) : string :=
  match l with
  | [] => EmptyString
  | [x] => x
  | x :: l' => x +:+ sep +:+ join sep l'
  end.

(** [s.replace(old, new)]: non-overlapping, left to right (only ever called
    with a non-empty [old]). *)
Fixpoint replace_go (fuel : nat) (old new s : string) : string :=
  match fuel with
  | O => s
  | S f =>
      match s with
      | EmptyString => EmptyString
      | String a s' =>
          if String.prefix old s && negb (String.eqb old EmptyString)
          then new +:+ replace_go f old new (substring (String.length old)
                                              (String.length s) s)
          else String a (replace_go f old new s')
      end
  end.
Definition replace (old new s : string) : string :=
  replace_go (S (String.length s)) old new s.

(** [s.startswith(p)]. *)
Definition startswith (s p : string) : bool := String.prefix p s.

(** Index of the last occurrence of [c] in [s], as [str.rfind] ([-1] when
    absent). *)
Fixpoint rfind_go (c : ascii) (s : string) (i : Z) (acc : Z) : Z :=
  match s with
  | EmptyString => acc
  | String a s' => rfind_go c s' (i + 1)%Z (if Ascii.eqb a c then i else acc)
  end.
Definition rfind (c : ascii) (s : string) : Z := rfind_go c s 0%Z (-1)%Z.

Definition take (n : Z) (s : string) : string := substring 0 (Z.to_nat n) s.
Definition drop (n : Z) (s : string) : string :=
  substring (Z.to_nat n) (String.length s) s.

(** [genericpath._splitext(p, '/', None, '.')], i.e. [os.path.splitext] on
    POSIX: the extension starts at the last dot after the last slash, unless
    the file name up to that dot consists of dots only. *)
Definition splitext (p : string) : string * string :=
  let sep := rfind slash p in
  let dot := rfind "."%char p in
  if Z.ltb sep dot then
    let fname := drop (sep + 1)%Z (take dot p) in
    if forallb (fun a => Ascii.eqb a "."%char) (list_ascii_of_string fname)
    then (p, EmptyString)
    else (take dot p, drop dot p)
  else (p, EmptyString).

(** [posixpath.normpath]. *)
Definition normpath (path : string) : string :=
  if String.eqb path EmptyString then "." else
  let initial :=
    if startswith path "/" then
      if startswith path "//" && negb (startswith path "///") then 2%nat else 1%nat
    else 0%nat in
  let step (acc : list string) (comp : string) : list string :=
    (* [acc] holds [new_comps] in reverse *)
    if String.eqb comp EmptyString || String.eqb comp "." then acc
    else if negb (String.eqb comp "..")
            || (Nat.eqb initial 0 && bool_decide (acc = []))
            || (match acc with top :: _ => String.eqb top ".." | [] => false end)
         then comp :: acc
         else match acc with [] => [] | _ :: acc' => acc' end in
  let comps := rev (fold_left step (split slash path) []) in
  let body := join "/" comps in
  let res := append (String.concat "" (repeat "/" initial)) body in
  if String.eqb res EmptyString then "." else res.

Fixpoint drop_while_slash (l : list ascii) : list ascii :=
  match l with
  | a :: l' => if Ascii.eqb a slash then drop_while_slash l' else l
  | [] => []
  end.

(** [posixpath.dirname]. *)
Definition dirname (p : string) : string :=
  let i := (rfind slash p + 1)%Z in
  let head := take i p in
  if negb (String.eqb head EmptyString)
     && negb (forallb (fun a => Ascii.eqb a slash) (list_ascii_of_string head))
  then (* head.rstrip('/') *)
    string_of_list_ascii
      (rev (drop_while_slash (rev (list_ascii_of_string head))))
  else head.

End PyStr.

(* ================================================================== *)
(** ** Python exceptions and the state/exception monad *)

(** The outcome of a Python computation: a value, or a raised exception
    (named by its class). *)
Inductive res (A : Type) : Type :=
  | Ok (a : A)
  | Raise (exn : string).
Arguments Ok {A} a.
Arguments Raise {A} exn.

Module PyNum.
Import PyStr.

(** [str(n)] of a Python int. *)
Fixpoint digits_go (fuel : nat) (n : Z) (acc : string) : string :=
  match fuel with
  | O => acc
  | S f =>
      let acc' := String (ascii_of_nat (48 + Z.to_nat (n mod 10))) acc in
      if Z.eqb (n / 10) 0 then acc' else digits_go f (n / 10) acc'
  end.
Definition str_of_Z (n : Z) : string :=
  if Z.ltb n 0 then "-" +:+ digits_go (S (Z.to_nat (Z.log2 (- n)))) (- n) EmptyString
  else digits_go (S (Z.to_nat (Z.log2 n))) n EmptyString.

Definition is_space (a : ascii) : bool :=
  let n := nat_of_ascii a in
  Nat.eqb n 32 || (Nat.leb 9 n && Nat.leb n 13).

Definition digit_val (a : ascii) : option Z :=
  let n := nat_of_ascii a in
  if Nat.leb 48 n && Nat.leb n 57 then Some (Z.of_nat (n - 48)) else None.

Fixpoint strip_left (l : list ascii) : list ascii :=
  match l with
  | a :: l' => if is_space a then strip_left l' else l
  | [] => []
  end.

(** Digits with single underscores between them, as [int()] accepts;
    [prev_digit] tells whether the previous character was a digit. *)
Fixpoint parse_digits (l : list ascii) (acc : Z) (prev_digit : bool) : option Z :=
  match l with
  | [] => if prev_digit then Some acc else None
  | a :: l' =>
      match digit_val a with
      | Some d => parse_digits l' (acc * 10 + d)%Z true
      | None =>
          if Ascii.eqb a "_"%char && prev_digit then parse_digits l' acc false
          else None
      end
  end.

(** [int(s)] for a base-10 string: surrounding ASCII whitespace, an optional
    sign, then digits; [ValueError] otherwise. *)
Definition py_int (s : string) : res Z :=
  let l := rev (strip_left (rev (strip_left (list_ascii_of_string s)))) in
  let signed :=
    match l with
    | "-"%char :: l' => ((-1)%Z, l')
    | "+"%char :: l' => (1%Z, l')
    | _ => (1%Z, l)
    end in
  match parse_digits (snd signed) 0%Z false with
  | Some n => Ok (fst signed * n)%Z
  | None => Raise "ValueError"
  end.

(** [template.format(args...)] for a template whose only replacement fields
    are positional [{}]; [IndexError] when the arguments run out. *)
Fixpoint format_go (l : list ascii) (args : list string) : res string :=
  match l with
  | "{"%char :: "}"%char :: l' =>
      match args with
      | a :: args' =>
          match format_go l' args' with
          | Ok r => Ok (a +:+ r)
          | Raise e => Raise e
          end
      | [] => Raise "IndexError"
      end
  | c :: l' =>
      match format_go l' args with
      | Ok r => Ok (String c r)
      | Raise e => Raise e
      end
  | [] => Ok EmptyString
  end.
Definition py_format (template : string) (args : list string) : res string :=
  format_go (list_ascii_of_string template) args.

(** The binary exponent [e] of the rational [na / nb] ([na, nb > 0]):
    [2^e <= na / nb < 2^(e+1)]. *)
Definition quot_exp (na nb : Z) : Z :=
  if Z.leb nb na then Z.log2 (na / nb)
  else (- Z.log2_up ((nb + na - 1) / na))%Z.

(** [n / d] rounded to the nearest integer, ties to even ([d > 0]). *)
Definition round_half_even (n d : Z) : Z :=
  let q := (n / d)%Z in
  let r2 := (2 * (n mod d))%Z in
  if Z.ltb r2 d then q
  else if Z.ltb d r2 then (q + 1)%Z
  else if Z.even q then q else (q + 1)%Z.

(** [a / b] for Python ints: the IEEE double nearest to the exact quotient
    (ties to even), returned as [(m, k)] for the value [m * 2^k], with [m]
    of at most 53 bits and [k >= -1074] (subnormals included);
    [ZeroDivisionError] for [b = 0], [OverflowError] when the rounded
    quotient reaches 2^1024. *)
Definition true_div (a b : Z) : res (Z * Z) :=
  if Z.eqb b 0 then Raise "ZeroDivisionError"
  else if Z.eqb a 0 then Ok (0%Z, 0%Z)
  else
    let na := Z.abs a in
    let nb := Z.abs b in
    let k := Z.max (quot_exp na nb - 52) (-1074) in
    let m := round_half_even (na * 2 ^ (Z.max 0 (- k))) (nb * 2 ^ (Z.max 0 k)) in
    if Z.leb (2 ^ 1024) (m * 2 ^ (Z.max 0 k)) then Raise "OverflowError"
    else Ok (if Z.eqb (Z.sgn a) (Z.sgn b) then m else (- m)%Z, k).

(** [math.ceil(a / b)] for Python ints: the ceiling of the float quotient. *)
Definition ceil_div (a b : Z) : res Z :=
  match true_div a b with
  | Ok (m, k) =>
      Ok (if Z.leb 0 k then (m * 2 ^ k)%Z else (- ((- m) / 2 ^ (- k)))%Z)
  | Raise e => Raise e
  end.

End PyNum.

(* ================================================================== *)
(** ** The operating system: files, directories, processes *)

Module Sys.

(** What a finished [subprocess.run] reports. *)
Record proc := mkProc {
  returncode : Z;
  stdout : string;
  stderr : string
}.

(** An external program, as seen by the pipeline: given its command line and
    the regular files present when it starts, its exit status, its output
    and the regular files present when it exits. *)
Definition oracle : Type := string -> gmap string Z -> proc * gmap string Z.

(** Observable interactions with the operating system. *)
Inductive event :=
  | EvRun (cmd : string)          (* a process is spawned *)
  | EvExists (p : string)         (* os.path.exists *)
  | EvGetsize (p : string)        (* os.path.getsize *)
  | EvMakedirs (p : string)       (* os.makedirs *)
  | EvOpen (p : string)           (* open(p, "a") *)
  | EvRemove (p : string)         (* os.remove *)
  | EvRename (src dst : string).  (* os.rename *)

(** Regular files with their sizes, directories, and the interactions so
    far, oldest first. *)
Record world := mkWorld {
  w_files : gmap string Z;
  w_dirs : gset string;
  w_trace : list event
}.

Definition M (A : Type) : Type := world -> res A * world.

Definition retM {A} (a : A) : M A := fun w => (Ok a, w).
Definition raiseM {A} (e : string) : M A := fun w => (Raise e, w).
Definition bindM {A B} (m : M A) (k : A -> M B) : M B :=
  fun w => match m w with
           | (Ok a, w') => k a w'
           | (Raise e, w') => (Raise e, w')
           end.
Definition liftR {A} (r : res A) : M A :=
  match r with Ok a => retM a | Raise e => raiseM e end.

Notation "'let*' x ':=' m 'in' k" := (bindM m (fun x => k))
  (at level 200, x name, m at level 100, k at level 200).
Notation "'let*' ' p ':=' m 'in' k" :=
  (bindM m (fun x => match x with p => k end))
  (at level 200, p pattern, m at level 100, k at level 200).

Definition record (ev : event) (w : world) : world :=
  mkWorld (w_files w) (w_dirs w) (w_trace w ++ [ev]).

Definition is_file (w : world) (p : string) : bool :=
  bool_decide (is_Some (w_files w !! p)).
Definition is_dir (w : world) (p : string) : bool :=
  bool_decide (p ∈ w_dirs w).

Section Os.
Variable tool : oracle.

(** [subprocess.run(cmd, shell=True, ...)]: waits for the process. *)
Definition run (cmd : string) : M proc :=
  fun w =>
    let '(p, fs) := tool cmd (w_files w) in
    (Ok p, mkWorld fs (w_dirs w) (w_trace w ++ [EvRun cmd])).

(** [os.path.exists]. *)
Definition exists_ (p : string) : M bool :=
  fun w => (Ok (is_file w p || is_dir w p), record (EvExists p) w).

(** [os.path.getsize]; a directory entry reports the size of its inode
    block, taken to be 4096 here. *)
Definition getsize (p : string) : M Z :=
  fun w =>
    let w' := record (EvGetsize p) w in
    match w_files w !! p with
    | Some n => (Ok n, w')
    | None => if is_dir w p then (Ok 4096%Z, w') else (Raise "FileNotFoundError", w')
    end.

(** The directory [d] and all its ancestors, as [os.makedirs] creates them. *)
Definition ancestors (d : string) : list string :=
  let segs := PyStr.split PyStr.slash d in
  map (fun n => PyStr.join "/" (take n segs)) (seq 1 (length segs)).

(** [os.makedirs(d)]: [FileExistsError] when [d] exists; [NotADirectoryError]
    when one of its proper ancestors is a regular file (the [mkdir] of the
    component below it fails); otherwise [d] and its missing ancestors are
    created. *)
Definition makedirs (d : string) : M unit :=
  fun w =>
    let w' := record (EvMakedirs d) w in
    if is_file w d || is_dir w d then (Raise "FileExistsError", w')
    else if existsb (is_file w) (removelast (ancestors d)) then
      (Raise "NotADirectoryError", w')
    else (Ok tt, mkWorld (w_files w') (list_to_set (ancestors d) ∪ w_dirs w')
                         (w_trace w')).

(** [open(p, "a")]: creates an empty file when none is there. *)
Definition open_append (p : string) : M unit :=
  fun w =>
    let w' := record (EvOpen p) w in
    if is_dir w p then (Raise "IsADirectoryError", w')
    else if is_file w p then (Ok tt, w')
    else (Ok tt, mkWorld (<[p := 0%Z]> (w_files w')) (w_dirs w') (w_trace w')).

(** [os.remove(p)]. *)
Definition remove (p : string) : M unit :=
  fun w =>
    let w' := record (EvRemove p) w in
    if is_file w p then (Ok tt, mkWorld (delete p (w_files w')) (w_dirs w') (w_trace w'))
    else if is_dir w p then (Raise "IsADirectoryError", w')
    else (Raise "FileNotFoundError", w').

(** [os.rename(src, dst)] of a regular file (the pipeline renames nothing
    else): replaces a regular file at [dst]. *)
Definition rename (src dst : string) : M unit :=
  fun w =>
    let w' := record (EvRename src dst) w in
    match w_files w !! src with
    | Some n =>
        if is_dir w dst then (Raise "IsADirectoryError", w')
        else (Ok tt, mkWorld (<[dst := n]> (delete src (w_files w'))) (w_dirs w') (w_trace w'))
    | None => (Raise "FileNotFoundError", w')
    end.

End Os.

End Sys.

(* ================================================================== *)
(** ** main.py *)

Module Pipeline.
Import PyStr PyNum Sys.

(** The global [bool_env] dictionary (never mutated by the pipeline). *)
Record bool_env := mkEnv {
  logging : bool;
  overwrite_env : bool
}.

(** [norm]: [os.path.normpath] with backslashes turned into slashes. *)
Definition norm (path : string) : string :=
  replace (String backslash EmptyString) "/" (normpath path).

(** [l[-1] = f(l[-1])] on a non-empty list. *)
Fixpoint map_last (f : string -> string) (l : list string) : list string :=
  match l with
  | [] => []
  | [x] => [f x]
  | x :: l' => x :: map_last f l'
  end.

(** The output path computed in the first loop of [batch_transcode]
    (variant = format, extension = format) and of [batch_resize]
    (variant = "upscaled", extension = "png"). *)
Definition derive_output (path variant ext : string) : string :=
  let path_elements := split slash (norm path) in
  let path_elements :=
    if Nat.ltb 1 (length path_elements) then
      match path_elements with
      | e0 :: rest => (e0 +:+ "_" +:+ variant) :: rest
      | [] => []
      end
    else path_elements in
  let path_elements :=
    map_last (fun last => fst (splitext last) +:+ "." +:+ ext) path_elements in
  join "/" path_elements.

(** The [ffprobe] command line of [get_dimension] and [single_upscale]. *)
Definition probe_cmd (path : string) : string :=
  "ffprobe -v error -select_streams v:0 -show_entries stream=width,height -of csv=s=x:p=0 "
  +:+ dq +:+ path +:+ dq.

(** The [commands] dictionary of [batch_transcode]. *)
Definition commands (format : string) : option string :=
  if String.eqb format "avif" then
    Some ("ffmpeg -i " +:+ dq +:+ "{}" +:+ dq
          +:+ " -c:v libsvtav1 -pix_fmt yuv420p10le -crf 24 -preset 6 -vf "
          +:+ dq +:+ "scale=ceil(iw/2)*2:ceil(ih/2)*2" +:+ dq +:+ "{} "
          +:+ dq +:+ "{}" +:+ dq)
  else if String.eqb format "jxl" then
    Some ("cjxl -q 100 -e 8 " +:+ dq +:+ "{}" +:+ dq +:+ " " +:+ dq +:+ "{}" +:+ dq)
  else if String.eqb format "png" then
    Some ("ffmpeg -i " +:+ dq +:+ "{}" +:+ dq +:+ " -c:v png -compression_level 6{} "
          +:+ dq +:+ "{}" +:+ dq)
  else None.

(** The [return_data] dictionary of [batch_transcode]: its "failed",
    "skipped" and "" lists. *)
Record return_data := mkRD {
  rd_failed : list string;
  rd_skipped : list string;
  rd_ok : list string
}.
Definition rd_empty : return_data := mkRD [] [] [].

(** [return_data[status].append(path)]. *)
Definition rd_append (status path : string) (rd : return_data) : res return_data :=
  if String.eqb status "failed" then Ok (mkRD (rd_failed rd ++ [path]) (rd_skipped rd) (rd_ok rd))
  else if String.eqb status "skipped" then Ok (mkRD (rd_failed rd) (rd_skipped rd ++ [path]) (rd_ok rd))
  else if String.eqb status "" then Ok (mkRD (rd_failed rd) (rd_skipped rd) (rd_ok rd ++ [path]))
  else Raise "KeyError".

(** A submitted future keeps its callable's exception until [result()]. *)
Definition capture {A} (m : M A) : M (res A) :=
  fun w => let '(r, w') := m w in (Ok r, w').

(** [[executor.submit(f, x) for x in xs]]: every task runs to completion
    (each one atomically, in the executor's order); the list holds each
    task's result or exception. *)
Fixpoint submit_all {A B} (f : A -> M B) (xs : list A) : M (list (res B)) :=
  match xs with
  | [] => retM []
  | x :: xs' =>
      let* r := capture (f x) in
      let* rs := submit_all f xs' in
      retM (r :: rs)
  end.

(** The [as_completed] loop of [batch_transcode]: [future.result()]
    re-raises the task's exception. *)
Fixpoint collect_transcode (rd : return_data) (rs : list (res (string * string)))
  : res return_data :=
  match rs with
  | [] => Ok rd
  | Ok (status, path) :: rs' =>
      match rd_append status path rd with
      | Ok rd' => collect_transcode rd' rs'
      | Raise e => Raise e
      end
  | Raise e :: _ => Raise e
  end.

(** The sequential loop of [batch_transcode] ([threads <= 1]). *)
Fixpoint run_seq (f : string * string -> M (string * string)) (rd : return_data)
  (pairs : list (string * string)) : M return_data :=
  match pairs with
  | [] => retM rd
  | io :: pairs' =>
      let* '(status, path) := f io in
      let* rd' := liftR (rd_append status path rd) in
      run_seq f rd' pairs'
  end.

(** The [as_completed] loop of [batch_resize]. *)
Fixpoint collect_resize (failed : list string) (rs : list (res (bool * string)))
  : res (list string) :=
  match rs with
  | [] => Ok failed
  | Ok (ok, msg) :: rs' =>
      if ok then collect_resize failed rs' else collect_resize (failed ++ [msg]) rs'
  | Raise e :: _ => Raise e
  end.

(** [math.ceil] quotients of lines 248-254 of [single_upscale]. *)
Definition upscale_scale (width_only height_only : bool) (width height tw th : Z)
  : res Z :=
  if width_only then ceil_div tw width
  else if height_only then ceil_div th height
  else match ceil_div tw width with
       | Ok a => match ceil_div th height with
                 | Ok b => Ok (Z.max a b)
                 | Raise e => Raise e
                 end
       | Raise e => Raise e
       end.

(** The [do_resize]/[filter] decision of lines 264-274 of [single_upscale]:
    [Some filter] when the corrective downscale runs. *)
Definition resize_filter (width_only height_only : bool) (width height scale tw th : Z)
  : option string :=
  if width_only && Z.ltb tw (width * scale) then
    Some ("scale=" +:+ str_of_Z tw +:+ ":-1")
  else if height_only && Z.ltb th (height * scale) then
    Some ("scale=-1:" +:+ str_of_Z th)
  else if negb width_only && negb height_only
          && (Z.ltb tw (width * scale) || Z.ltb th (height * scale)) then
    Some ("scale=" +:+ str_of_Z tw +:+ ":" +:+ str_of_Z th)
  else None.

(** The [ffmpeg] command of the corrective downscale: it writes the sibling
    path [<output_path>.png]. *)
Definition downscale_cmd (output_path filter : string) : string :=
  "ffmpeg -i " +:+ dq +:+ output_path +:+ dq +:+ " -vf " +:+ dq +:+ filter +:+ dq
  +:+ " -y " +:+ dq +:+ output_path +:+ ".png" +:+ dq.

Definition upscale_cmd (input_path output_path : string) (scale : Z) (model : string)
  : string :=
  "realesrgan-ncnn-vulkan -i " +:+ dq +:+ input_path +:+ dq +:+ " -o " +:+ dq
  +:+ output_path +:+ dq +:+ " -s " +:+ str_of_Z scale +:+ " -n " +:+ model
  +:+ " -f png".

(** The [ffmpeg] command of the direct downscale in [batch_resize]. *)
Definition direct_downscale_cmd (input_path filter output_path : string) : string :=
  "ffmpeg -i " +:+ dq +:+ input_path +:+ dq +:+ " -vf " +:+ dq +:+ filter +:+ dq
  +:+ " -y " +:+ dq +:+ output_path +:+ dq.

Section Code.
Variable tool : oracle.
Variable env : bool_env.
(** The order in which the thread pool runs the submitted tasks (and in which
    [as_completed] yields them). *)
Variable sched : forall A, list A -> list A.

(** [get_dimension]. *)
Definition get_dimension (path : string) : M (Z * Z) :=
  let* p := run tool (probe_cmd path) in
  if negb (Z.eqb (returncode p) 0) then retM ((-1)%Z, (-1)%Z) else
  match split "x"%char (stdout p) with
  | [ws; hs] =>
      let* width := liftR (py_int ws) in
      let* height := liftR (py_int hs) in
      retM (width, height)
  | _ => raiseM "ValueError"
  end.

(** The first loop of [batch_transcode] and [batch_resize]: output paths,
    with their directories created. *)
Fixpoint plan_outputs (variant ext : string) (input_paths : list string)
  : M (list string) :=
  match input_paths with
  | [] => retM []
  | path :: rest =>
      let output_path := derive_output path variant ext in
      let out_dir := dirname output_path in
      let* _ := (if String.eqb out_dir EmptyString then retM tt
                 else let* ex := exists_ out_dir in
                      if ex then retM tt else makedirs out_dir) in
      let* outs := plan_outputs variant ext rest in
      retM (output_path :: outs)
  end.

Definition log_open (p : string) : M unit :=
  if logging env then open_append p else retM tt.

(** [batch_transcode.__helper]. *)
Definition transcode_helper (format : string) (overwrite : bool) (threads : Z)
  (overwrite_flag : string) (io : string * string) : M (string * string) :=
  let '(input_path, output_path) := io in
  let* ex := exists_ output_path in
  if ex && negb overwrite then retM ("skipped", input_path) else
  let* template := liftR (match commands format with
                          | Some c => Ok c
                          | None => Raise "KeyError"
                          end) in
  let* cmd :=
    (if startswith template "ffmpeg" then
       liftR (py_format template [input_path; overwrite_flag; output_path])
     else if startswith template "cjxl" then
       liftR (py_format template [input_path; output_path])
     else retM template) in
  let* cmd :=
    (if Z.ltb 1 threads then let* _ := log_open ("transcode_" +:+ format +:+ ".log") in
                             retM cmd
     else retM (replace "ffmpeg" "ffpb" cmd)) in
  let* _ := run tool cmd in
  let* ex := exists_ output_path in
  if ex then
    let* size := getsize output_path in
    if Z.ltb 0 size then retM ("", "") else retM ("failed", input_path)
  else retM ("failed", input_path).

(** [batch_transcode]: the failed and the skipped inputs. *)
Definition batch_transcode (input_paths : list string) (format : string)
  (overwrite : bool) (threads : Z) : M (list string * list string) :=
  if Nat.eqb (length input_paths) 0 then retM ([], []) else
  let threads := if String.eqb format "avif" || String.eqb format "mp4"
                 then 1%Z else threads in
  let* output_paths := plan_outputs format format input_paths in
  let overwrite_flag := if overwrite then " -y" else "" in
  let helper := transcode_helper format overwrite threads overwrite_flag in
  let pairs := combine input_paths output_paths in
  let* rd :=
    (if Z.ltb 1 threads then
       let* rs := submit_all helper (sched _ pairs) in
       liftR (collect_transcode rd_empty rs)
     else run_seq helper rd_empty pairs) in
  retM (rd_failed rd, rd_skipped rd).

(** Lines 275-284 of [single_upscale]. *)
Definition corrective_downscale (output_path filter : string) : M unit :=
  let* _ := log_open "upscale.log" in
  let* _ := run tool (downscale_cmd output_path filter) in
  let* _ := remove output_path in
  rename (output_path +:+ ".png") output_path.

(** [single_upscale]. *)
Definition single_upscale (input_path output_path : string) (width height tw th : Z)
  : M (bool * string) :=
  if Z.eqb tw 0 && Z.eqb th 0 then
    retM (false, "Both target width and height cannot be 0") else
  let* p := run tool (probe_cmd input_path) in
  if negb (Z.eqb (returncode p) 0) then retM (false, stderr p) else
  let width_only := negb (Z.eqb tw 0) && Z.eqb th 0 in
  let height_only := Z.eqb tw 0 && negb (Z.eqb th 0) in
  let* scale := liftR (upscale_scale width_only height_only width height tw th) in
  let model := if Z.eqb scale 4 then "realesrgan-x4plus-anime"
               else "realesr-animevideov3" in
  let* _ := run tool (upscale_cmd input_path output_path scale model) in
  let* _ := (match resize_filter width_only height_only width height scale tw th with
             | Some filter => corrective_downscale output_path filter
             | None => retM tt
             end) in
  let* ex := exists_ output_path in
  if ex then retM (true, input_path)
  else retM (false, "Downscaling after upscaling failed").

(** One branch of [batch_resize.__helper] that downscales with [ffmpeg]. *)
Definition direct_downscale (input_path output_path filter : string)
  : M (bool * string) :=
  let* _ := log_open "downscale.log" in
  let* _ := run tool (direct_downscale_cmd input_path filter output_path) in
  let* ex := exists_ output_path in
  if ex then retM (true, "") else retM (false, input_path).

(** [batch_resize.__helper]. *)
Definition resize_helper (tw th : Z) (io : string * string) : M (bool * string) :=
  let '(input_path, output_path) := io in
  let* ex := exists_ output_path in
  if ex && negb (overwrite_env env) then retM (true, "") else
  let* '(width, height) := get_dimension input_path in
  if Z.eqb width (-1) || Z.eqb height (-1) then retM (false, input_path) else
  if negb (Z.eqb tw 0) && Z.leb tw width then
    direct_downscale input_path output_path ("scale=" +:+ str_of_Z tw +:+ ":-1")
  else if negb (Z.eqb th 0) && Z.leb th height then
    direct_downscale input_path output_path ("scale=-1:" +:+ str_of_Z th)
  else single_upscale input_path output_path width height tw th.

(** [batch_resize]. The declared result is [tuple[list[str], str]] ([inr]);
    the early return for an empty input returns a bare list ([inl]). *)
Definition batch_resize (input_paths : list string) (threads tw th : Z)
  : M (list string + (list string * string)) :=
  match input_paths with
  | [] => retM (inl [])
  | _ =>
      let* output_paths := plan_outputs "upscaled" "png" input_paths in
      if Z.leb threads 0 then raiseM "ValueError" else
      let* rs := submit_all (resize_helper tw th)
                   (sched _ (combine input_paths output_paths)) in
      let* failed := liftR (collect_resize [] rs) in
      retM (inr (failed, dirname (hd EmptyString output_paths)))
  end.

End Code.

End Pipeline.

(* ================================================================== *)
(** ** Vocabulary for the statements, and concrete environments *)

Module Aux.
Import PyStr Sys Pipeline.

(** [c not in s]. *)
Fixpoint no_char (c : ascii) (s : string) : bool :=
  match s with
  | EmptyString => true
  | String a s' => negb (Ascii.eqb a c) && no_char c s'
  end.

(** The first-segment step of the output-path derivation. *)
Definition suffix_first (variant : string) (l : list string) : list string :=
  if Nat.ltb 1 (length l) then
    match l with e0 :: rest => (e0 +:+ "_" +:+ variant) :: rest | [] => [] end
  else l.

(** The command lines of the processes spawned in a trace. *)
Definition spawned (tr : list event) : list string :=
  omap (fun ev => match ev with EvRun c => Some c | _ => None end) tr.

(** What [os.path.getsize] reports for an existing path. *)
Definition stat_size (w : world) (p : string) : Z :=
  match w_files w !! p with Some n => n | None => 4096%Z end.

(** [os.path.exists] on a world. *)
Definition path_exists (w : world) (p : string) : bool := is_file w p || is_dir w p.

(** [w'] follows [w] with the same regular files, at least its directories,
    and no process spawned in between. *)
Definition quiet (w w' : world) : Prop :=
  w_files w' = w_files w /\ w_dirs w ⊆ w_dirs w' /\
  spawned (w_trace w') = spawned (w_trace w).

(** An empty working directory. *)
Definition w_empty : world := mkWorld ∅ ∅ [].

(** [bool_env] as main.py initialises it. *)
Definition env_default : bool_env := mkEnv true false.

(** A thread pool that runs and completes the tasks in submission order. *)
Definition in_order : forall A, list A -> list A := fun _ l => l.

(** A scripted set of external programs: [ffprobe] answers [probe]; any
    other command runs the first rule whose prefix it starts with, exiting
    with the rule's code after writing the rule's files (path, size); a
    command matching no rule exits 0 and writes nothing. *)
Definition tool_script (probe : proc) (rules : list (string * Z * list (string * Z)))
  : oracle :=
  fun cmd fs =>
    if startswith cmd "ffprobe" then (probe, fs) else
    match List.find (fun r => startswith cmd (fst (fst r))) rules with
    | Some (_, code, writes) =>
        (mkProc code "" "", fold_left (fun m pn => <[fst pn := snd pn]> m) writes fs)
    | None => (mkProc 0 "" "", fs)
    end.

End Aux.


(* ================================================================== *)
(** ** The rest of main.py: listing, archiving, menu messages, blurhash *)

Module Rest.
Import PyStr PyNum Sys Pipeline.

(** [s.endswith(suffix)]. *)
Definition endswith (s suffix : string) : bool :=
  bool_decide (list_ascii_of_string suffix `suffix_of` list_ascii_of_string s).

(** [s.endswith(tuple(suffixes))]. *)
Definition endswith_any (s : string) (suffixes : list string) : bool :=
  existsb (endswith s) suffixes.

(** [posixpath.join(a, b)]. *)
Definition path_join (a b : string) : string :=
  if startswith b "/" then b
  else if String.eqb a EmptyString || endswith a "/" then a +:+ b
  else a +:+ "/" +:+ b.

(** A directory tree: what [os.listdir] returns for a directory, in its
    order, each entry a regular file or a directory with its own listing. *)
#[warnings="-register-all"]
Inductive entry : Type :=
  | EFile (name : string)
  | EDir (name : string) (children : list entry).

(** What one entry [i] of the directory [path] contributes to [list_files]:
    the file itself when its name has a listed extension, the files below it
    when it is a directory and the listing is recursive. *)
Fixpoint list_entry (path : string) (ext : list string) (recursive : bool) (e : entry)
  : list string :=
  match e with
  | EFile i => if endswith_any i ext then [norm (path_join path i)] else []
  | EDir i children =>
      if recursive then flat_map (list_entry (path_join path i) ext recursive) children
      else []
  end.

(** The loop of [list_files] over the listing [es] of the directory [path]. *)
Definition list_files_go (path : string) (ext : list string) (recursive : bool)
  (es : list entry) : list string :=
  flat_map (list_entry path ext recursive) es.

(** [list_files(path, ext, recursive)], [listing] being the tree below
    [path]. *)
Definition list_files (path : string) (ext : list string) (recursive : bool)
  (listing : list entry) : list string :=
  if String.eqb path EmptyString then [] else list_files_go path ext recursive listing.




Section Compress.
(** The exit code of [7z] run with an argument vector in a directory. *)
Variable archiver : list string -> list string -> Z.

End Compress.

(** [MainMenu.__handle_error]: the lines it prints. *)
Definition handle_error (msg_command : string) (failed_list skipped_list : list string)
  : res (list string) :=
  match split "_"%char msg_command with
  | [msg_type; format] =>
      let msg :=
        if String.eqb msg_type "transcode" then
          Some ("Failed to transcode the following images to " +:+ format +:+ ":")
        else if String.eqb msg_type "resize" then
          Some "Failed to resize the following images:"
        else None in
      match msg with
      | None => Raise "ValueError"
      | Some m =>
          Ok ((if Nat.ltb 0 (length failed_list)
               then ("  " +:+ m) :: map (fun i => "    " +:+ i) failed_list else [])
              ++ (if Nat.ltb 0 (length skipped_list)
                  then "  Skipped the following images:" :: map (fun i => "    " +:+ i) skipped_list
                  else []))%list
      end
  | _ => Raise "ValueError"
  end.

(** [s.strip()] for ASCII whitespace. *)
Definition py_strip (s : string) : string :=
  string_of_list_ascii (rev (strip_left (rev (strip_left (list_ascii_of_string s))))).

(** [shutil.rmtree(p)] of a directory: everything below it goes. *)
Definition rmtree (p : string) : M unit :=
  fun w =>
    if is_dir w p then
      (Ok tt, mkWorld (filter (fun kv => negb (startswith kv.1 (p +:+ "/"))) (w_files w))
                      (filter (fun d => negb (String.eqb d p || startswith d (p +:+ "/")))
                              (w_dirs w))
                      (w_trace w))
    else if is_file w p then (Raise "NotADirectoryError", w)
    else (Raise "FileNotFoundError", w).

Definition blurhash_exts : list string := [".png"; ".jpg"; ".jpeg"; ".avif"; ".jxl"].

(** [final_data]: zip path to image path to [blurhash, width, height]. *)
Abbreviation final_map := (gmap string (gmap string (list string))).

(** The [match status] loop of [batch_calculate_blurhash] for one zip file. *)
Fixpoint collect_blurhash (zip_path : string) (failed : list string) (final : final_map)
  (rs : list (res (string * string * list string))) : res (list string * final_map) :=
  match rs with
  | [] => Ok (failed, final)
  | Ok (status, file, data) :: rs' =>
      if String.eqb status "failed" then
        match data with
        | d0 :: _ => collect_blurhash zip_path (failed ++ [path_join zip_path d0])%list final rs'
        | [] => Raise "IndexError"
        end
      else if String.eqb status "success" then
        let inner := match final !! zip_path with Some m => m | None => ∅ end in
        collect_blurhash zip_path failed (<[zip_path := <[file := data]> inner]> final) rs'
      else collect_blurhash zip_path failed final rs'
  | Raise e :: _ => Raise e
  end.

Section Blurhash.
Variable tool : oracle.
Variable sched : forall A, list A -> list A.
(** Opening the zip file, extracting it into [temp_path] and listing the
    images found there ([ZipFile], [extractall], [list_files]). *)
Variable unpack : string -> string -> M (list string).

(** [batch_calculate_blurhash.__helper]. *)
Definition blurhash_helper (temp_path zip_file file : string)
  : M (string * string * list string) :=
  if negb (endswith_any file blurhash_exts) then
    retM ("skipped", replace temp_path zip_file file, [""; ""; ""]) else
  let* '(width, height) := get_dimension tool file in
  let* blur_hash := run tool ("blurhash-cli " +:+ dq +:+ file +:+ dq) in
  if negb (Z.eqb (returncode blur_hash) 0) then
    retM ("failed", replace temp_path zip_file file, [""; ""; ""]) else
  let h := py_strip (stdout blur_hash) in
  retM ("success", replace temp_path zip_file file, [h; str_of_Z width; str_of_Z height]).

(** The loop over the zip files. *)
Fixpoint blurhash_zips (temp_path : string) (input_zips : list string)
  (failed : list string) (final : final_map) : M (list string * final_map) :=
  match input_zips with
  | [] => retM (failed, final)
  | zip_path :: zips =>
      let* files := unpack temp_path zip_path in
      let* rs := submit_all (blurhash_helper temp_path zip_path) (sched _ files) in
      let* '(failed', final') := liftR (collect_blurhash zip_path failed final rs) in
      let* _ := rmtree temp_path in
      blurhash_zips temp_path zips failed' final'
  end.

(** [batch_calculate_blurhash]. *)
Definition batch_calculate_blurhash (input_zips : list string) : M (list string * final_map) :=
  blurhash_zips "blurhash_temp" input_zips [] ∅.
End Blurhash.

End Rest.

(** ** Vocabulary for the further properties *)

Module Vocab.
Import PyStr Sys Pipeline Rest.

(** Every occurrence of the character [c] in [s] replaced by [new]. *)
Fixpoint replace_char (c : ascii) (new s : string) : string :=
  match s with
  | EmptyString => EmptyString
  | String a s' =>
      if Ascii.eqb a c then new +:+ replace_char c new s' else String a (replace_char c new s')
  end.

(** A name [os.listdir] can return: no slash, not empty, not [.] or [..]. *)
Definition name_ok (i : string) : bool :=
  Aux.no_char slash i && negb (String.eqb i EmptyString)
  && negb (String.eqb i ".") && negb (String.eqb i "..").

Fixpoint entry_ok (e : entry) : bool :=
  match e with
  | EFile i => name_ok i
  | EDir i children => name_ok i && forallb entry_ok children
  end.

(** The number of [{}] fields [format_go] fills. *)
Fixpoint holes (l : list ascii) : nat :=
  match l with
  | "{"%char :: "}"%char :: l' => S (holes l')
  | _ :: l' => holes l'
  | [] => O
  end.

(** [m] only appends events satisfying [P] to the trace. *)
Definition trace_ok {A} (P : event -> Prop) (m : M A) : Prop :=
  forall w, exists tr, w_trace (snd (m w)) = (w_trace w ++ tr)%list /\ Forall P tr.

(** An event that opens no log file and, if it spawns a process, spawns it
    through [ffpb]. *)
Definition quiet_ffpb (ev : event) : Prop :=
  (forall p, ev <> EvOpen p) /\ (forall c, ev = EvRun c -> startswith c "ffpb" = true).

(** The components [os.chdir] descends into for a path without [..]. *)
Definition real_comps (p : string) : list string :=
  filter (fun c => negb (String.eqb c EmptyString || String.eqb c ".")) (split slash p).

(** No proper ancestor of the output directory of any input is a regular
    file in [w]: the [os.makedirs] calls of the planning loop cannot fail. *)
Definition makedirs_clear (w : world) (variant ext : string) (inputs : list string) : bool :=
  forallb (fun p => forallb (fun a => negb (is_file w a))
             (removelast (ancestors (dirname (derive_output p variant ext))))) inputs.

End Vocab.

(* ================================================================== *)
(** * Facts *)

Module StrFacts.
Import PyStr Aux.

(* stdpp makes [String.append] [simpl never]; its two equations: *)
Lemma sapp_nil_l (b : string) : EmptyString +:+ b = b.
Proof. reflexivity. Qed.

Lemma sapp_cons (x : ascii) (a b : string) : String x a +:+ b = String x (a +:+ b).
Proof. reflexivity. Qed.

Lemma sapp_assoc (a b c : string) : (a +:+ b) +:+ c = a +:+ (b +:+ c).
Proof.
  induction a as [|x a IH]; [done|]. rewrite !sapp_cons. by rewrite IH.
Qed.

Lemma sapp_nil_r (a : string) : a +:+ EmptyString = a.
Proof. induction a as [|x a IH]; [done|]. rewrite sapp_cons. by rewrite IH. Qed.

Lemma no_char_app c a b : no_char c (a +:+ b) = no_char c a && no_char c b.
Proof.
  induction a as [|x a IH]; [done|]. rewrite sapp_cons. simpl.
  rewrite IH. by rewrite andb_assoc.
Qed.

Lemma split_go_app c s rest cur :
  no_char c s = true -> split_go c (s +:+ rest) cur = split_go c rest (cur +:+ s).
Proof.
  revert cur; induction s as [|a s IH]; intros cur H.
  - by rewrite sapp_nil_l, sapp_nil_r.
  - rewrite sapp_cons. simpl in *. apply andb_prop in H as [Ha Hs].
    destruct (Ascii.eqb a c) eqn:E; [discriminate|].
    rewrite IH by done. by rewrite sapp_assoc.
Qed.

Lemma split_go_nonempty c s cur : split_go c s cur <> [].
Proof.
  revert cur; induction s as [|a s IH]; intros cur; simpl; [done|].
  destruct (Ascii.eqb a c); [done | apply IH].
Qed.

Lemma split_go_no_char c s cur :
  no_char c cur = true -> Forall (fun x => no_char c x = true) (split_go c s cur).
Proof.
  revert cur; induction s as [|a s IH]; intros cur Hcur; simpl.
  - by constructor.
  - destruct (Ascii.eqb a c) eqn:E.
    + constructor; [done | by apply IH].
    + apply IH. rewrite no_char_app, Hcur. simpl. by rewrite E.
Qed.

Lemma split_join c l :
  l <> [] -> Forall (fun x => no_char c x = true) l ->
  split c (join (String c EmptyString) l) = l.
Proof.
  unfold split. induction l as [|x l IH]; intros Hne Hall; [done|].
  apply Forall_cons in Hall as [Hx Hl].
  destruct l as [|y l].
  - change (join (String c EmptyString) [x]) with x.
    rewrite <- (sapp_nil_r x) at 1. rewrite split_go_app by done.
    simpl. by rewrite sapp_nil_l.
  - change (join (String c EmptyString) (x :: y :: l))
      with (x +:+ String c (join (String c EmptyString) (y :: l))).
    rewrite split_go_app by done. simpl. rewrite Ascii.eqb_refl, sapp_nil_l.
    f_equal. by apply IH.
Qed.

Lemma no_char_substring c s n m :
  no_char c s = true -> no_char c (substring n m s) = true.
Proof.
  revert n m; induction s as [|a s IH]; intros n m H; simpl.
  - by destruct n, m.
  - simpl in H. apply andb_prop in H as [Ha Hs].
    destruct n as [|n].
    + destruct m as [|m]; simpl; [done|]. rewrite Ha. by apply IH.
    + by apply IH.
Qed.

Lemma splitext_fst_no_char c p : no_char c p = true -> no_char c (fst (splitext p)) = true.
Proof.
  intros H. unfold splitext.
  destruct (Z.ltb _ _); [|done].
  destruct (forallb _ _); simpl; [done|]. by apply no_char_substring.
Qed.

End StrFacts.

Module PathFacts.
Import PyStr StrFacts Sys Pipeline Aux.

Lemma length_map_last f (l : list string) : length (map_last f l) = length l.
Proof.
  induction l as [|x l IH]; [done|]. destruct l as [|y l]; [done|].
  change (length (x :: map_last f (y :: l)) = length (x :: y :: l)). simpl in *. by rewrite IH.
Qed.

Lemma lookup_map_last f (l : list string) i :
  S i < length l -> map_last f l !! i = l !! i.
Proof.
  revert i; induction l as [|x l IH]; intros i Hi; [done|].
  destruct l as [|y l]; [simpl in Hi; lia|].
  change (map_last f (x :: y :: l)) with (x :: map_last f (y :: l)).
  destruct i as [|i]; [done|]. simpl. apply IH. simpl in *. lia.
Qed.

Lemma last_map_last f (l : list string) : last (map_last f l) = f <$> last l.
Proof.
  induction l as [|x l IH]; [done|]. destruct l as [|y l]; [done|].
  change (map_last f (x :: y :: l)) with (x :: map_last f (y :: l)).
  assert (Hne : map_last f (y :: l) <> []) by (destruct l; simpl; discriminate).
  destruct (map_last f (y :: l)) as [|z m] eqn:E; [done|].
  rewrite (last_cons_cons x z m), IH, (last_cons_cons x y l). done.
Qed.

Lemma Forall_map_last (P : string -> Prop) f (l : list string) :
  (forall x, P x -> P (f x)) -> Forall P l -> Forall P (map_last f l).
Proof.
  intros Hf. induction l as [|x l IH]; intros Hl; [done|].
  apply Forall_cons in Hl as [Hx Hl].
  destruct l as [|y l]; [by constructor; auto|].
  change (map_last f (x :: y :: l)) with (x :: map_last f (y :: l)).
  constructor; auto.
Qed.

Lemma derive_output_split path variant ext :
  no_char slash variant = true -> no_char slash ext = true ->
  split slash (derive_output path variant ext)
  = map_last (fun last => fst (splitext last) +:+ "." +:+ ext)
             (suffix_first variant (split slash (norm path))).
Proof.
  intros Hv He. unfold derive_output. cbv zeta.
  change "/" with (String slash EmptyString).
  fold (suffix_first variant (split slash (norm path))).
  apply split_join.
  - unfold split, suffix_first.
    pose proof (split_go_nonempty slash (norm path) EmptyString) as Hne.
    destruct (split_go _ _ _) as [|x l]; [done|].
    destruct (Nat.ltb _ _); destruct l; done.
  - apply Forall_map_last.
    + intros x Hx. rewrite !no_char_app. simpl.
      by rewrite (splitext_fst_no_char _ _ Hx), He.
    + unfold suffix_first. pose proof (split_go_no_char slash (norm path) EmptyString eq_refl) as H.
      unfold split. destruct (split_go _ _ _) as [|x l]; [done|].
      destruct (Nat.ltb _ _); [|done].
      apply Forall_cons in H as [Hx Hl]. constructor; [|done].
      rewrite !no_char_app, Hx, Hv. done.
Qed.

End PathFacts.

Module MFacts.
Import Sys.

Lemma bind_Ok_inv {A B} (m : M A) (k : A -> M B) w r w' :
  bindM m k w = (Ok r, w') -> exists a w1, m w = (Ok a, w1) /\ k a w1 = (Ok r, w').
Proof. unfold bindM. destruct (m w) as [[a|e] w1]; intros H; [eauto|discriminate]. Qed.

Lemma bind_Ok {A B} (m : M A) (k : A -> M B) w a w1 :
  m w = (Ok a, w1) -> bindM m k w = k a w1.
Proof. unfold bindM. by intros ->. Qed.

Lemma bind_Raise {A B} (m : M A) (k : A -> M B) w e w1 :
  m w = (Raise e, w1) -> bindM m k w = (Raise e, w1).
Proof. unfold bindM. by intros ->. Qed.

Lemma py_int_error s e : PyNum.py_int s = Raise e -> e = "ValueError".
Proof. unfold PyNum.py_int. destruct (PyNum.parse_digits _ _ _); congruence. Qed.

End MFacts.

Module PlanFacts.
Import PyStr Sys Pipeline Vocab MFacts.

(** [m] leaves the regular files as they are. *)
Definition files_stable {A} (m : M A) : Prop :=
  forall w, w_files (snd (m w)) = w_files w.

Lemma bind_files_stable {A B} (m : M A) (k : A -> M B) :
  files_stable m -> (forall a, files_stable (k a)) -> files_stable (bindM m k).
Proof.
  intros Hm Hk w. unfold bindM. specialize (Hm w).
  destruct (m w) as [[a|e] w1]; simpl in *; [by rewrite Hk|done].
Qed.

Lemma plan_outputs_files variant ext (inputs : list string) :
  files_stable (plan_outputs variant ext inputs).
Proof.
  induction inputs as [|p inputs IH]; [by intros w|].
  simpl. apply bind_files_stable; [|intros _; apply bind_files_stable; [exact IH|by intros ? ?]].
  destruct (String.eqb _ _); [by intros ?|].
  apply bind_files_stable; [by intros ?|]. intros ex. destruct ex; [by intros ?|].
  intros w. unfold makedirs. destruct (_ || _); [done|]. by destruct (existsb _ _).
Qed.

Lemma is_file_files w w' p : w_files w' = w_files w -> is_file w' p = is_file w p.
Proof. unfold is_file. by intros ->. Qed.

Lemma makedirs_clear_files w w' variant ext inputs :
  w_files w' = w_files w ->
  makedirs_clear w' variant ext inputs = makedirs_clear w variant ext inputs.
Proof.
  intros F. unfold makedirs_clear, is_file. by rewrite F.
Qed.

(** Whenever the planning loop completes, it yields the derived paths. *)
Lemma plan_outputs_Ok variant ext (inputs : list string) (w : world) outs :
  fst (plan_outputs variant ext inputs w) = Ok outs ->
  outs = map (fun p => derive_output p variant ext) inputs.
Proof.
  revert w outs; induction inputs as [|p inputs IH]; intros w outs H.
  - simpl in H. by injection H.
  - simpl in H. destruct (bindM _ _ w) as [r w'] eqn:E. simpl in H. subst r.
    apply bind_Ok_inv in E as (u & w1 & _ & E).
    apply bind_Ok_inv in E as (outs' & w2 & E1 & E2).
    unfold retM in E2. injection E2 as <- _. simpl.
    f_equal. eapply IH. by rewrite E1.
Qed.

(** With no regular file in the way of [os.makedirs], the planning loop
    completes. *)
Lemma plan_outputs_clear variant ext (inputs : list string) (w : world) :
  makedirs_clear w variant ext inputs = true ->
  fst (plan_outputs variant ext inputs w)
  = Ok (map (fun p => derive_output p variant ext) inputs).
Proof.
  revert w; induction inputs as [|p inputs IH]; intros w Hc; [done|].
  unfold makedirs_clear in Hc. simpl in Hc. apply andb_true_iff in Hc as [Hp Hc].
  fold (makedirs_clear w variant ext inputs) in Hc.
  set (d := dirname (derive_output p variant ext)) in *.
  assert (Hstep : forall w', w_files w' = w_files w ->
            exists w1, (if String.eqb d EmptyString then retM tt
                        else (let* ex := exists_ d in
                              if ex then retM tt else makedirs d)) w' = (Ok tt, w1) /\
                       w_files w1 = w_files w).
  { intros w' F. destruct (String.eqb d EmptyString); [by exists w'|].
    unfold bindM, exists_. simpl.
    destruct (is_file w' d || is_dir w' d) eqn:E; [by eexists|].
    unfold makedirs. cbn [w_files w_dirs w_trace record] in *.
    unfold is_file, is_dir in E |- *. simpl. rewrite E. simpl.
    assert (Hx : existsb (fun p0 => bool_decide (is_Some (w_files w' !! p0)))
                         (removelast (ancestors d)) = false).
    { apply not_true_is_false. intros Hx. apply existsb_exists in Hx as [a [Ha Hf]].
      apply forallb_forall with (x := a) in Hp; [|done].
      rewrite F in Hf. unfold is_file in Hp. rewrite Hf in Hp. discriminate. }
    rewrite Hx. by eexists. }
  simpl. destruct (Hstep w eq_refl) as [w1 [E1 F1]].
  rewrite (bind_Ok _ _ _ _ _ E1).
  rewrite <- (makedirs_clear_files w w1 _ _ _ F1) in Hc.
  specialize (IH w1 Hc).
  unfold bindM. destruct (plan_outputs variant ext inputs w1) as [[o|e] w2];
    simpl in *; congruence.
Qed.

End PlanFacts.

(* ================================================================== *)
(** * The claims *)

Import PyStr PyNum Sys Pipeline Aux Vocab StrFacts PathFacts MFacts PlanFacts.

(** C7. Output-path derivation: the normalised input is split on '/', the
    first segment becomes [<first>_<variant>] exactly when there is more than
    one segment, the inner segments are kept, the last segment's extension
    (as [os.path.splitext] sees it) becomes the target extension; and
    whenever the planning loop of both batches completes, it yields these
    paths, whatever the state of the filesystem, so repeated derivations
    agree. *)
Theorem derive_output_placement (path variant ext : string) :
  no_char slash variant = true -> no_char slash ext = true ->
  let segs := split slash (norm path) in
  let out := split slash (derive_output path variant ext) in
  length out = length segs /\
  (1 < length segs -> head out = (fun s0 => s0 +:+ "_" +:+ variant) <$> head segs) /\
  (forall i, 0 < i -> S i < length segs -> out !! i = segs !! i) /\
  last out = (fun s => fst (splitext s) +:+ "." +:+ ext) <$> last segs /\
  (forall (inputs : list string) (w : world) outs,
     fst (plan_outputs variant ext inputs w) = Ok outs ->
     outs = map (fun p => derive_output p variant ext) inputs).
Proof.
  intros Hv He segs out. subst out.
  rewrite (derive_output_split path variant ext Hv He). fold segs.
  assert (Hne : segs <> []) by apply split_go_nonempty.
  split; [|split; [|split; [|split]]].
  - rewrite length_map_last. unfold suffix_first.
    destruct (Nat.ltb _ _); [|done]. by destruct segs.
  - intros Hlt. unfold suffix_first.
    apply Nat.ltb_lt in Hlt. rewrite Hlt.
    destruct segs as [|s0 [|s1 rest]]; [done|simpl in Hlt; discriminate|].
    change (map_last ?f ((s0 +:+ "_" +:+ variant) :: s1 :: rest))
      with ((s0 +:+ "_" +:+ variant) :: map_last f (s1 :: rest)).
    done.
  - intros i Hi Hlen. rewrite lookup_map_last.
    + unfold suffix_first. destruct (Nat.ltb _ _); [|done].
      destruct segs as [|s0 rest]; [done|]. destruct i; [lia|done].
    + unfold suffix_first. destruct (Nat.ltb _ _); [|done].
      destruct segs as [|s0 rest]; [done|]. simpl in *. lia.
  - rewrite last_map_last. f_equal. unfold suffix_first.
    destruct (Nat.ltb 1 (length segs)) eqn:E; [|done].
    destruct segs as [|s0 [|s1 rest]]; [done|simpl in E; discriminate|].
    by rewrite !last_cons_cons.
  - intros inputs w outs. apply plan_outputs_Ok.
Qed.

Lemma round_half_even_spec (n d : Z) :
  (0 < d)%Z -> (- d <= 2 * (round_half_even n d * d - n) <= d)%Z.
Proof.
  intros Hd. unfold round_half_even.
  pose proof (Z.div_mod n d ltac:(lia)) as Hdm.
  pose proof (Z.mod_pos_bound n d Hd) as Hm.
  set (q := (n / d)%Z) in *. set (r := (n mod d)%Z) in *.
  destruct (Z.ltb_spec (2 * r) d); [nia|].
  destruct (Z.ltb_spec d (2 * r)); [nia|].
  destruct (Z.even q); nia.
Qed.

Lemma quot_exp_spec (na nb : Z) : (0 < na)%Z -> (0 < nb)%Z ->
  (nb * 2 ^ Z.max 0 (quot_exp na nb) <= na * 2 ^ Z.max 0 (- quot_exp na nb))%Z /\
  (na * 2 ^ Z.max 0 (- (quot_exp na nb + 1)) < nb * 2 ^ Z.max 0 (quot_exp na nb + 1))%Z.
Proof.
  intros Ha Hb. unfold quot_exp.
  destruct (Z.leb_spec nb na) as [Hle|Hlt].
  - set (f := (na / nb)%Z).
    assert (Hf : (1 <= f)%Z) by (apply Z.div_le_lower_bound; lia).
    pose proof (Z.log2_spec f ltac:(lia)) as [Hl1 Hl2].
    pose proof (Z.log2_nonneg f) as Hl0.
    pose proof (Z.div_mod na nb ltac:(lia)) as Hdm.
    pose proof (Z.mod_pos_bound na nb Hb) as Hm.
    fold f in Hdm. set (L := Z.log2 f) in *.
    replace (Z.max 0 L) with L by lia.
    replace (Z.max 0 (- L)) with 0%Z by lia.
    replace (Z.max 0 (- (L + 1))) with 0%Z by lia.
    replace (Z.max 0 (L + 1)) with (Z.succ L) by lia.
    rewrite Z.pow_succ_r in * by lia. rewrite Z.pow_0_r.
    set (P := (2 ^ L)%Z) in *. nia.
  - set (c := ((nb + na - 1) / na)%Z).
    assert (Hc : (2 <= c)%Z) by (apply Z.div_le_lower_bound; lia).
    pose proof (Z.log2_up_spec c ltac:(lia)) as [Hl1 Hl2].
    pose proof (Z.log2_up_pos c ltac:(lia)) as Hl0.
    pose proof (Z.div_mod (nb + na - 1) na ltac:(lia)) as Hdm.
    pose proof (Z.mod_pos_bound (nb + na - 1) na Ha) as Hm.
    fold c in Hdm. set (L := Z.log2_up c) in *.
    replace (Z.max 0 (- L)) with 0%Z by lia.
    replace (Z.max 0 (- - L)) with L by lia.
    replace (Z.max 0 (- (- L + 1))) with (Z.pred L) by lia.
    replace (Z.max 0 (- L + 1)) with 0%Z by lia.
    assert (HL : (2 ^ L = 2 * 2 ^ Z.pred L)%Z).
    { rewrite <- Z.pow_succ_r by lia. f_equal. lia. }
    rewrite HL in *. rewrite Z.pow_0_r.
    set (P := (2 ^ Z.pred L)%Z) in *. nia.
Qed.

Lemma ceil_div_spec (a b : Z) :
  (- 2 ^ 53 < a < 2 ^ 53)%Z -> (0 < b < 2 ^ 53)%Z ->
  exists k, ceil_div a b = Ok k /\ ((k - 1) * b < a <= k * b)%Z.
Proof.
  intros Ha Hb. unfold ceil_div, true_div.
  destruct (Z.eqb_spec b 0) as [->|_]; [lia|].
  destruct (Z.eqb_spec a 0) as [->|Ha0].
  { exists 0%Z. split; [reflexivity|lia]. }
  cbv zeta.
  replace (Z.abs b) with b by lia.
  pose proof (quot_exp_spec (Z.abs a) b ltac:(lia) ltac:(lia)) as [He1 He2].
  set (e := quot_exp (Z.abs a) b) in *. set (na := Z.abs a) in *.
  assert (Hna : (0 < na < 2 ^ 53)%Z) by (unfold na; lia).
  assert (Heh : (e <= 52)%Z).
  { destruct (Z.le_gt_cases e 52) as [|Hgt]; [assumption|exfalso].
    replace (Z.max 0 e) with e in He1 by lia.
    replace (Z.max 0 (- e)) with 0%Z in He1 by lia.
    pose proof (Z.pow_le_mono_r 2 53 e ltac:(lia) ltac:(lia)). nia. }
  assert (Hel : (-53 <= e)%Z).
  { destruct (Z.le_gt_cases (-53) e) as [|Hlt]; [assumption|exfalso].
    replace (Z.max 0 (- (e + 1))) with (- (e + 1))%Z in He2 by lia.
    replace (Z.max 0 (e + 1)) with 0%Z in He2 by lia.
    pose proof (Z.pow_le_mono_r 2 53 (- (e + 1)) ltac:(lia) ltac:(lia)). nia. }
  assert (Hb2 : (b < 2 ^ (53 - e))%Z).
  { assert (Hp : (2 ^ Z.max 0 e * 2 ^ (53 - e) = 2 ^ 53 * 2 ^ Z.max 0 (- e))%Z).
    { rewrite <- !Z.pow_add_r by lia. f_equal. lia. }
    pose proof (Z.pow_pos_nonneg 2 (Z.max 0 e) ltac:(lia) ltac:(lia)).
    pose proof (Z.pow_pos_nonneg 2 (Z.max 0 (- e)) ltac:(lia) ltac:(lia)).
    nia. }
  clear He2.
  replace (Z.max (e - 52) (-1074)) with (e - 52)%Z by lia.
  replace (Z.max 0 (- (e - 52))) with (52 - e)%Z by lia.
  replace (Z.max 0 (e - 52)) with 0%Z by lia.
  rewrite Z.pow_0_r, !Z.mul_1_r.
  assert (HP : (2 ^ (53 - e) = 2 * 2 ^ (52 - e))%Z).
  { rewrite <- Z.pow_succ_r by lia. f_equal. lia. }
  pose proof (Z.pow_le_mono_r 2 (52 - e) 105 ltac:(lia) ltac:(lia)) as HP105.
  pose proof (Z.pow_pos_nonneg 2 (52 - e) ltac:(lia) ltac:(lia)) as HP0.
  rewrite HP in Hb2. clear HP He1.
  set (P := (2 ^ (52 - e))%Z) in *.
  pose proof (round_half_even_spec (na * P) b ltac:(lia)) as Hr.
  set (m := round_half_even (na * P) b) in *.
  assert (Hm0 : (0 <= m)%Z) by nia.
  assert (Hmb : (m <= na * P + b)%Z) by nia.
  destruct (Z.leb_spec (2 ^ 1024) m) as [Hov|_]; [exfalso; nia|].
  assert (Hs : exists ms, (if Z.sgn a =? Z.sgn b then m else - m)%Z = ms /\
                 (- b <= 2 * (ms * b - a * P) <= b)%Z).
  { destruct (Z.ltb_spec 0 a).
    - rewrite (Z.sgn_pos a), (Z.sgn_pos b) by lia. cbn [Z.eqb Pos.eqb].
      exists m. split; [reflexivity|]. unfold na in Hr. rewrite Z.abs_eq in Hr by lia. lia.
    - rewrite (Z.sgn_neg a), (Z.sgn_pos b) by lia. cbn [Z.eqb Pos.eqb].
      exists (- m)%Z. split; [reflexivity|]. unfold na in Hr. rewrite Z.abs_neq in Hr by lia. lia. }
  destruct Hs as [ms [-> Hms]].
  exists (- ((- ms) / P))%Z. split.
  { destruct (Z.leb_spec 0 (e - 52)).
    - assert (e = 52)%Z by lia. subst P. subst e.
      replace (52 - quot_exp na b)%Z with 0%Z by lia.
      replace (quot_exp na b - 52)%Z with 0%Z by lia.
      rewrite Z.pow_0_r, Z.div_1_r. f_equal. lia.
    - replace (- (e - 52))%Z with (52 - e)%Z by lia. reflexivity. }
  pose proof (Z.div_mod (- ms) P ltac:(lia)) as Hdm.
  pose proof (Z.mod_pos_bound (- ms) P ltac:(lia)) as Hmod.
  set (q := ((- ms) / P)%Z) in *. set (r := ((- ms) mod P)%Z) in *.
  split.
  - destruct (Z.le_gt_cases a ((- q - 1) * b)) as [Hc|]; [exfalso|lia].
    assert (H1 : (a * P <= (- q - 1) * b * P)%Z) by nia.
    assert (H2 : ((- q - 1) * P <= ms - 1)%Z) by lia.
    assert (H3 : ((- q - 1) * P * b <= (ms - 1) * b)%Z) by nia.
    nia.
  - destruct (Z.le_gt_cases a (- q * b)) as [|Hc]; [assumption|exfalso].
    assert (H1 : (a * P >= (- q * b + 1) * P)%Z) by nia.
    assert (H2 : (ms <= - q * P)%Z) by lia.
    assert (H3 : (ms * b <= - q * P * b)%Z) by nia.
    nia.
Qed.

(** C1 (amended). With a probed width and height that are positive, and
    with the targets and the probed sizes below 2^53 in absolute value, the
    scale factor of [single_upscale] is the ceiling of targetWidth/width for
    a width-only target, of targetHeight/height for a height-only target, and
    the larger of the two ceilings otherwise; no clamp is applied. *)
Theorem upscale_scale_ceilings (width height tw th : Z) :
  (0 < width < 2 ^ 53)%Z -> (0 < height < 2 ^ 53)%Z ->
  (- 2 ^ 53 < tw < 2 ^ 53)%Z -> (- 2 ^ 53 < th < 2 ^ 53)%Z ->
  let width_only := negb (Z.eqb tw 0) && Z.eqb th 0 in
  let height_only := Z.eqb tw 0 && negb (Z.eqb th 0) in
  exists scale,
    upscale_scale width_only height_only width height tw th = Ok scale /\
    (width_only = true -> ((scale - 1) * width < tw <= scale * width)%Z) /\
    (height_only = true -> ((scale - 1) * height < th <= scale * height)%Z) /\
    (width_only = false -> height_only = false ->
       exists a b, ((a - 1) * width < tw <= a * width)%Z /\
                   ((b - 1) * height < th <= b * height)%Z /\ scale = Z.max a b).
Proof.
  intros Hw Hh Htw Hth. cbv zeta.
  destruct (ceil_div_spec tw width Htw Hw) as [a [Ha Ha']].
  destruct (ceil_div_spec th height Hth Hh) as [b [Hb Hb']].
  unfold upscale_scale.
  destruct (Z.eqb tw 0), (Z.eqb th 0); simpl.
  - exists (Z.max a b). rewrite Ha, Hb.
    repeat split; try discriminate. intros _ _. by exists a, b.
  - exists b. rewrite Hb. repeat split; try discriminate; lia.
  - exists a. rewrite Ha. repeat split; try discriminate; lia.
  - exists (Z.max a b). rewrite Ha, Hb.
    repeat split; try discriminate. intros _ _. by exists a, b.
Qed.

Lemma upscale_scale_ceilings_witness :
  (0 < 1200 < 2 ^ 53)%Z /\ (0 < 900 < 2 ^ 53)%Z /\
  (- 2 ^ 53 < 2500 < 2 ^ 53)%Z /\ (- 2 ^ 53 < 0 < 2 ^ 53)%Z /\
  upscale_scale true false 1200 900 2500 0 = Ok 3%Z.
Proof.
  split; [lia|]. split; [lia|]. split; [lia|]. split; [lia|].
  destruct (upscale_scale_ceilings 1200 900 2500 0 ltac:(lia) ltac:(lia)
              ltac:(lia) ltac:(lia))
    as [s [Hs [Hw _]]].
  change (upscale_scale true false 1200 900 2500 0 = Ok s) in Hs.
  rewrite Hs. f_equal. specialize (Hw eq_refl). lia.
Defined.

(** C1: the claimed clamp to 4 is absent: a 100x100 input with a width-only
    target of 1000 gets the factor 10, which [single_upscale] passes to the
    upscaler. *)
Lemma upscale_scale_not_clamped :
  upscale_scale true false 100 100 1000 0 = Ok 10%Z /\
  (10 > 4)%Z /\
  spawned (w_trace (snd (single_upscale (tool_script (mkProc 0 "100x100" "") [])
                           env_default "p/a.png" "p_upscaled/a.png" 100 100 1000 0
                           w_empty)))
  = [probe_cmd "p/a.png";
     upscale_cmd "p/a.png" "p_upscaled/a.png" 10 "realesr-animevideov3"].
Proof. split; [reflexivity|]. split; [lia|]. vm_compute. reflexivity. Qed.

(** Beyond 2^53 the scale factor is the ceiling of the rounded float
    quotient: a width-only target of 2^53 + 1 over a width of 1 gives 2^53,
    and a quotient of 2^1024 or more raises [OverflowError]. *)
Lemma upscale_scale_float :
  upscale_scale true false 1 1 (2 ^ 53 + 1) 0 = Ok (2 ^ 53)%Z /\
  upscale_scale true false 1 1 (10 ^ 400) 0 = Raise "OverflowError".
Proof. split; vm_compute; reflexivity. Qed.

(** C5 (code defect). For an empty input list [batch_transcode] returns
    ([], []) and [batch_resize] returns a bare empty list instead of its
    declared (failed list, output folder) pair; neither touches the
    filesystem nor spawns a process. *)
Theorem batch_empty_inputs tool env sched format overwrite threads
  threads' tw th (w : world) :
  batch_transcode tool env sched [] format overwrite threads w = (Ok ([], []), w) /\
  batch_resize tool env sched [] threads' tw th w = (Ok (inl []), w).
Proof. split; reflexivity. Qed.

Lemma derive_output_placement_witness :
  no_char slash "jxl" = true /\
  length (split slash (derive_output "pack/sub/a.png" "jxl" "jxl")) = 3.
Proof.
  split; [reflexivity|].
  exact (proj1 (derive_output_placement "pack/sub/a.png" "jxl" "jxl" eq_refl eq_refl)).
Defined.

Lemma collect_resize_success_irrelevant failed pre post m1 m2 :
  collect_resize failed (pre ++ Ok (true, m1) :: post)
  = collect_resize failed (pre ++ Ok (true, m2) :: post).
Proof.
  revert failed; induction pre as [|r pre IH]; intros failed; [done|].
  simpl. destruct r as [[ok msg]|e]; [|done].
  destruct ok; apply IH.
Qed.

(** C10. In the resize stage a file whose output already exists while
    overwrite is off yields (True, "") after a single existence check, with
    no probe and no process; the report keeps only failures, so its value is
    the same whichever success message any item carries. *)
Theorem resize_existing_output_is_success tool env (tw th : Z) (i o : string)
  (w : world) :
  path_exists w o = true -> overwrite_env env = false ->
  resize_helper tool env tw th (i, o) w = (Ok (true, ""), record (EvExists o) w) /\
  spawned (w_trace (record (EvExists o) w)) = spawned (w_trace w) /\
  (forall failed pre post m1 m2,
     collect_resize failed (pre ++ Ok (true, m1) :: post)
     = collect_resize failed (pre ++ Ok (true, m2) :: post)).
Proof.
  intros Hex Hov. split; [|split].
  - unfold resize_helper, bindM, exists_. unfold path_exists in Hex.
    rewrite Hex, Hov. reflexivity.
  - unfold record, spawned. simpl. rewrite omap_app. simpl. by rewrite app_nil_r.
  - apply collect_resize_success_irrelevant.
Qed.

Lemma resize_existing_output_is_success_witness :
  path_exists (mkWorld {[ "p_upscaled/a.png" := 7%Z ]} ∅ []) "p_upscaled/a.png" = true /\
  fst (resize_helper (tool_script (mkProc 0 "10x10" "") []) env_default 2500 0
         ("p/a.png", "p_upscaled/a.png")
         (mkWorld {[ "p_upscaled/a.png" := 7%Z ]} ∅ [])) = Ok (true, "").
Proof.
  assert (Hex : path_exists (mkWorld {[ "p_upscaled/a.png" := 7%Z ]} ∅ [])
                  "p_upscaled/a.png" = true) by (vm_compute; reflexivity).
  split; [exact Hex|].
  rewrite (proj1 (resize_existing_output_is_success (tool_script (mkProc 0 "10x10" "") [])
                    env_default 2500 0 "p/a.png" "p_upscaled/a.png"
                    (mkWorld {[ "p_upscaled/a.png" := 7%Z ]} ∅ []) Hex eq_refl)).
  reflexivity.
Defined.

(** C4 (amended). [single_upscale] with both targets 0 returns the failure
    at once, with the world untouched; but the stage does not check this up
    front: [batch_resize.__helper] first checks the output; if it exists and
    overwrite is off, the file counts as a success; otherwise (the output is
    missing, or overwrite is on) it spawns the [ffprobe] probe, then fails
    (or raises if the probe's output does not parse), spawning nothing else. *)
Theorem upscale_zero_targets tool env (i o : string) (width height : Z) (w : world) :
  single_upscale tool env i o width height 0 0 w
    = (Ok (false, "Both target width and height cannot be 0"), w) /\
  (path_exists w o = true -> overwrite_env env = false ->
   resize_helper tool env 0 0 (i, o) w = (Ok (true, ""), record (EvExists o) w)) /\
  (path_exists w o = false \/ overwrite_env env = true ->
   let '(r, w') := resize_helper tool env 0 0 (i, o) w in
   w_trace w' = (w_trace w ++ [EvExists o; EvRun (probe_cmd i)])%list /\
   ((exists m, r = Ok (false, m)) \/ r = Raise "ValueError")).
Proof.
  split; [reflexivity|]. split.
  { intros Hex Hov. unfold resize_helper, bindM, exists_.
    unfold path_exists in Hex. rewrite Hex, Hov. reflexivity. }
  intros Hex.
  assert (Hc : (is_file w o || is_dir w o) && negb (overwrite_env env) = false).
  { destruct Hex as [H|H]; [unfold path_exists in H; by rewrite H|].
    rewrite H. apply andb_false_r. }
  unfold resize_helper. unfold bindM at 1. unfold exists_ at 1. cbv beta iota.
  rewrite Hc.
  unfold get_dimension, bindM, run. simpl.
  destruct (tool (probe_cmd i) _) as [p fs]. simpl.
  destruct (negb (Z.eqb (returncode p) 0)); simpl.
  - rewrite <- app_assoc. split; [done|]. left; eauto.
  - rewrite <- app_assoc.
    destruct (split "x"%char (stdout p)) as [|ws [|hs [|? ?]]]; simpl;
      try (split; [done|right; reflexivity]).
    destruct (py_int ws) as [a|e] eqn:Ea; simpl.
    + destruct (py_int hs) as [b|e] eqn:Eb; simpl.
      * destruct (Z.eqb a (-1) || Z.eqb b (-1)); simpl; split; try done; left; eauto.
      * split; [done|right]. by rewrite (py_int_error _ _ Eb).
    + split; [done|right]. by rewrite (py_int_error _ _ Ea).
Qed.

Lemma upscale_zero_targets_witness :
  (path_exists (mkWorld {[ "p_upscaled/a.png" := 7%Z ]} {[ "p_upscaled" ]} []) "p_upscaled/a.png" = true /\ overwrite_env env_default = false /\
   resize_helper (tool_script (mkProc 0 "100x100" "") []) env_default 0 0 ("p/a.png", "p_upscaled/a.png") (mkWorld {[ "p_upscaled/a.png" := 7%Z ]} {[ "p_upscaled" ]} [])
   = (Ok (true, ""), record (EvExists "p_upscaled/a.png") (mkWorld {[ "p_upscaled/a.png" := 7%Z ]} {[ "p_upscaled" ]} []))) /\
  (path_exists w_empty "p_upscaled/a.png" = false /\
   w_trace (snd (resize_helper (tool_script (mkProc 0 "100x100" "") []) env_default 0 0 ("p/a.png", "p_upscaled/a.png") w_empty))
   = [EvExists "p_upscaled/a.png"; EvRun (probe_cmd "p/a.png")]) /\
  (overwrite_env (mkEnv false true) = true /\
   w_trace (snd (resize_helper (tool_script (mkProc 0 "100x100" "") []) (mkEnv false true) 0 0 ("p/a.png", "p_upscaled/a.png") (mkWorld {[ "p_upscaled/a.png" := 7%Z ]} {[ "p_upscaled" ]} [])))
   = [EvExists "p_upscaled/a.png"; EvRun (probe_cmd "p/a.png")]).
Proof.
  assert (Hx : path_exists (mkWorld {[ "p_upscaled/a.png" := 7%Z ]} {[ "p_upscaled" ]} []) "p_upscaled/a.png" = true) by (vm_compute; reflexivity).
  assert (Hn : path_exists w_empty "p_upscaled/a.png" = false) by (vm_compute; reflexivity).
  split; [|split].
  - split; [exact Hx|]. split; [reflexivity|].
    exact (proj1 (proj2 (upscale_zero_targets (tool_script (mkProc 0 "100x100" "") []) env_default "p/a.png" "p_upscaled/a.png" 0 0 (mkWorld {[ "p_upscaled/a.png" := 7%Z ]} {[ "p_upscaled" ]} [])))
             Hx eq_refl).
  - split; [exact Hn|].
    pose proof (proj2 (proj2 (upscale_zero_targets (tool_script (mkProc 0 "100x100" "") []) env_default "p/a.png" "p_upscaled/a.png"
                                 0 0 w_empty)) (or_introl Hn)) as H.
    destruct (resize_helper _ _ _ _ _ _) as [r w'].
    exact (proj1 H).
  - split; [reflexivity|].
    pose proof (proj2 (proj2 (upscale_zero_targets (tool_script (mkProc 0 "100x100" "") []) (mkEnv false true) "p/a.png"
                                 "p_upscaled/a.png" 0 0 (mkWorld {[ "p_upscaled/a.png" := 7%Z ]} {[ "p_upscaled" ]} []))) (or_intror eq_refl)) as H.
    destruct (resize_helper _ _ _ _ _ _) as [r w'].
    exact (proj1 H).
Defined.

(** C4: called through the stage with both targets 0, a file is probed by a
    spawned [ffprobe] before the failure, and a file whose output already
    exists counts as a success. *)
Lemma upscale_zero_targets_stage :
  (let '(r, w') := batch_resize (tool_script (mkProc 0 "100x100" "") []) env_default
                     in_order ["p/a.png"] 4 0 0 w_empty in
   r = Ok (inr (["Both target width and height cannot be 0"], "p_upscaled")) /\
   spawned (w_trace w') = [probe_cmd "p/a.png"]) /\
  fst (batch_resize (tool_script (mkProc 0 "100x100" "") []) env_default in_order
         ["p/a.png"] 4 0 0 (mkWorld {[ "p_upscaled/a.png" := 7%Z ]} {[ "p_upscaled" ]} []))
  = Ok (inr ([], "p_upscaled")).
Proof. vm_compute. split; [split|]; reflexivity. Qed.

(** C3: in a 10-item transcode to "webp" (a documented format missing from
    [commands]) where nine outputs exist, the one item to process raises
    [KeyError] and the whole batch raises instead of reporting 1 failed and
    9 skipped; likewise a resize batch raises when one item's corrective
    downscale finds no upscaled file to remove. *)
Lemma batch_exception_aborts :
  fst (batch_transcode (tool_script (mkProc 0 "" "") []) env_default in_order
         (map (fun n => "p/f" +:+ str_of_Z n +:+ ".png") [0; 1; 2; 3; 4; 5; 6; 7; 8; 9]%Z)
         "webp" false 4
         (mkWorld (list_to_map (map (fun n => ("p_webp/f" +:+ str_of_Z n +:+ ".webp", 1%Z))
                                    [1; 2; 3; 4; 5; 6; 7; 8; 9]%Z))
                  {[ "p_webp" ]} []))
  = Raise "KeyError" /\
  fst (batch_resize (tool_script (mkProc 0 "100x100" "") []) env_default in_order
         ["p/a.png"; "p/b.png"] 4 250 0
         (mkWorld {[ "p_upscaled/b.png" := 7%Z ]} {[ "p_upscaled" ]} []))
  = Raise "FileNotFoundError".
Proof. vm_compute. split; reflexivity. Qed.

Module QuietFacts.

Lemma quiet_refl w : quiet w w.
Proof. done. Qed.

Lemma quiet_trans w1 w2 w3 : quiet w1 w2 -> quiet w2 w3 -> quiet w1 w3.
Proof.
  intros (F1 & D1 & S1) (F2 & D2 & S2). split; [congruence|]. split; [set_solver|congruence].
Qed.

Lemma quiet_record w ev :
  (forall c, ev <> EvRun c) -> quiet w (record ev w).
Proof.
  intros Hev. split; [done|]. split; [done|].
  unfold record, spawned. simpl. rewrite omap_app. simpl.
  destruct ev; try (by rewrite app_nil_r). by destruct (Hev cmd).
Qed.

Lemma path_exists_quiet w w' p :
  quiet w w' -> path_exists w p = true -> path_exists w' p = true.
Proof.
  intros (F & D & _). unfold path_exists, is_file, is_dir. rewrite F.
  intros H. apply orb_true_iff in H as [H|H]; apply orb_true_iff; [by left|right].
  apply bool_decide_eq_true in H. apply bool_decide_eq_true. set_solver.
Qed.

Lemma plan_outputs_quiet variant ext (inputs : list string) (w : world) :
  quiet w (snd (plan_outputs variant ext inputs w)).
Proof.
  revert w; induction inputs as [|p inputs IH]; intros w; [done|].
  simpl. unfold bindM at 1.
  destruct (String.eqb (dirname (derive_output p variant ext)) EmptyString).
  - simpl. unfold bindM. specialize (IH w).
    destruct (plan_outputs variant ext inputs w) as [[outs|e] w']; simpl in *; done.
  - unfold bindM at 1. unfold exists_ at 1.
    set (d := dirname (derive_output p variant ext)).
    assert (Q1 : quiet w (record (EvExists d) w)) by (apply quiet_record; discriminate).
    destruct (is_file w d || is_dir w d) eqn:E; simpl.
    + unfold bindM. specialize (IH (record (EvExists d) w)).
      destruct (plan_outputs _ _ _ _) as [[outs|e] w'] eqn:Ep; simpl in *;
        eapply quiet_trans; eauto.
    + unfold makedirs at 1. unfold is_file, is_dir in *. simpl. rewrite E. simpl.
      destruct (existsb _ _).
      { simpl. eapply quiet_trans; [exact Q1|]. apply quiet_record; discriminate. }
      set (w1 := mkWorld _ _ _).
      assert (Q2 : quiet w w1).
      { split; [done|]. split; [simpl; set_solver|].
        unfold w1, spawned. simpl. rewrite !omap_app. simpl. by rewrite !app_nil_r. }
      unfold bindM. specialize (IH w1).
      destruct (plan_outputs variant ext inputs w1) as [[outs|e] w'];
        simpl in *; eapply quiet_trans; eauto.
Qed.

End QuietFacts.

Module SkipFacts.
Import QuietFacts.

Lemma transcode_helper_skip tool env format threads flag (i o : string) (w : world) :
  path_exists w o = true ->
  transcode_helper tool env format false threads flag (i, o) w
  = (Ok ("skipped", i), record (EvExists o) w).
Proof.
  intros Hex. unfold transcode_helper, bindM, exists_.
  unfold path_exists in Hex. by rewrite Hex.
Qed.

Lemma combine_map_r {A B} (g : A -> B) (l : list A) :
  combine l (map g l) = map (fun x => (x, g x)) l.
Proof. induction l as [|x l IH]; simpl; [done|by rewrite IH]. Qed.

Lemma run_seq_skip tool env format threads flag rd
  (pairs : list (string * string)) (w : world) :
  Forall (fun io => path_exists w (snd io) = true) pairs ->
  exists w', run_seq (transcode_helper tool env format false threads flag) rd pairs w
             = (Ok (mkRD (rd_failed rd) (rd_skipped rd ++ map fst pairs) (rd_ok rd)), w')
             /\ quiet w w'.
Proof.
  revert rd w; induction pairs as [|[i o] pairs IH]; intros rd w Hall.
  - exists w. destruct rd; simpl. rewrite app_nil_r. done.
  - apply Forall_cons in Hall as [Hio Hall]. simpl in Hio.
    cbn [run_seq]. unfold bindM at 1. rewrite (transcode_helper_skip _ _ _ _ _ _ _ _ Hio).
    cbn [rd_append String.eqb liftR].
    assert (Q : quiet w (record (EvExists o) w)) by (apply quiet_record; discriminate).
    destruct (IH (mkRD (rd_failed rd) (rd_skipped rd ++ [i]) (rd_ok rd)) (record (EvExists o) w))
      as [w' [Hrun Hq]].
    { eapply Forall_impl; [exact Hall|]. intros x Hx. by eapply path_exists_quiet. }
    exists w'. unfold bindM. simpl. rewrite Hrun. simpl. rewrite <- app_assoc.
    split; [done|]. by eapply quiet_trans.
Qed.

Lemma submit_all_skip tool env format threads flag
  (pairs : list (string * string)) (w : world) :
  Forall (fun io => path_exists w (snd io) = true) pairs ->
  exists w', submit_all (transcode_helper tool env format false threads flag) pairs w
             = (Ok (map (fun io => Ok ("skipped", fst io)) pairs), w') /\ quiet w w'.
Proof.
  revert w; induction pairs as [|[i o] pairs IH]; intros w Hall.
  - by exists w.
  - apply Forall_cons in Hall as [Hio Hall]. simpl in Hio.
    cbn [submit_all]. unfold bindM at 1. unfold capture at 1.
    rewrite (transcode_helper_skip _ _ _ _ _ _ _ _ Hio).
    assert (Q : quiet w (record (EvExists o) w)) by (apply quiet_record; discriminate).
    destruct (IH (record (EvExists o) w)) as [w' [Hrun Hq]].
    { eapply Forall_impl; [exact Hall|]. intros x Hx. by eapply path_exists_quiet. }
    exists w'. unfold bindM. rewrite Hrun. split; [done|]. by eapply quiet_trans.
Qed.

Lemma collect_transcode_skipped rd (pairs : list (string * string)) :
  collect_transcode rd (map (fun io => Ok ("skipped", fst io)) pairs)
  = Ok (mkRD (rd_failed rd) (rd_skipped rd ++ map fst pairs) (rd_ok rd)).
Proof.
  revert rd; induction pairs as [|[i o] pairs IH]; intros rd.
  - destruct rd; simpl. by rewrite app_nil_r.
  - simpl. rewrite IH. simpl. by rewrite <- app_assoc.
Qed.

End SkipFacts.

Import QuietFacts SkipFacts.

Module VerdictFacts.

Lemma liftR_Ok_world {A} (r : res A) a w w' : liftR r w = (Ok a, w') -> w' = w /\ r = Ok a.
Proof. destruct r; unfold liftR, retM, raiseM; intros H; inversion H; subst; done. Qed.

Lemma retM_Ok_world {A} (x a : A) w w' : retM x w = (Ok a, w') -> w' = w /\ x = a.
Proof. unfold retM. intros H. by inversion H. Qed.

Lemma spawned_app tr1 tr2 : spawned (tr1 ++ tr2) = (spawned tr1 ++ spawned tr2)%list.
Proof. unfold spawned. by rewrite omap_app. Qed.

Lemma log_open_Ok env p w u w' :
  log_open env p w = (Ok u, w') ->
  w_dirs w' = w_dirs w /\ spawned (w_trace w') = spawned (w_trace w).
Proof.
  unfold log_open. destruct (logging env).
  - unfold open_append. destruct (is_dir w p); [discriminate|].
    destruct (is_file w p); intros H; inversion H; subst; simpl;
      (split; [done|]); by rewrite spawned_app, app_nil_r.
  - intros H. by inversion H.
Qed.

Lemma run_Ok tool cmd w p w' :
  run tool cmd w = (Ok p, w') ->
  tool cmd (w_files w) = (p, w_files w') /\ w_dirs w' = w_dirs w /\
  spawned (w_trace w') = (spawned (w_trace w) ++ [cmd])%list.
Proof.
  unfold run. destruct (tool cmd (w_files w)) as [p0 fs]. intros H. inversion H; subst.
  simpl. split; [done|]. split; [done|]. by rewrite spawned_app.
Qed.

Lemma exists_Ok o w b w' :
  exists_ o w = (Ok b, w') ->
  b = path_exists w o /\ w' = record (EvExists o) w.
Proof. unfold exists_. intros H. by inversion H. Qed.

Lemma path_exists_record w ev p : path_exists (record ev w) p = path_exists w p.
Proof. done. Qed.

Lemma stat_size_record w ev p : stat_size (record ev w) p = stat_size w p.
Proof. done. Qed.







(** The verdict of [batch_transcode.__helper] once the encoder has run. *)
Lemma transcode_helper_verdict tool env format overwrite threads flag (i o : string)
  (w w' : world) r :
  (overwrite = true \/ path_exists w o = false) ->
  transcode_helper tool env format overwrite threads flag (i, o) w = (Ok r, w') ->
  (exists cmd fs p, tool cmd fs = (p, w_files w') /\ w_dirs w' = w_dirs w /\
                    spawned (w_trace w') = (spawned (w_trace w) ++ [cmd])%list) /\
  ((r = ("", "") /\ path_exists w' o = true /\ (0 < stat_size w' o)%Z) \/
   (r = ("failed", i) /\ (path_exists w' o = false \/ (stat_size w' o <= 0)%Z))).
Proof.
  intros Hns H.
  unfold transcode_helper in H.
  apply bind_Ok_inv in H as (ex & w1 & Hex & H).
  apply exists_Ok in Hex as [-> ->].
  assert (Hf : path_exists w o && negb overwrite = false).
  { destruct Hns as [Ho | Ho]; rewrite Ho; [apply andb_false_r|done]. }
  rewrite Hf in H.
  apply bind_Ok_inv in H as (tmpl & w2 & Ht & H).
  apply liftR_Ok_world in Ht as [-> _].
  apply bind_Ok_inv in H as (cmd & w3 & Hc & H).
  assert (E3 : w3 = record (EvExists o) w).
  { destruct (startswith tmpl "ffmpeg"); [by apply liftR_Ok_world in Hc as [-> _]|].
    destruct (startswith tmpl "cjxl"); [by apply liftR_Ok_world in Hc as [-> _]|].
    by apply retM_Ok_world in Hc as [-> _]. }
  subst w3.
  apply bind_Ok_inv in H as (cmd' & w4 & Hc' & H).
  assert (E4 : w_dirs w4 = w_dirs w /\ spawned (w_trace w4) = spawned (w_trace w)).
  { destruct (Z.ltb 1 threads).
    - apply bind_Ok_inv in Hc' as (u & w5 & Hl & Hr).
      apply retM_Ok_world in Hr as [-> _].
      apply log_open_Ok in Hl as [-> ->]. simpl.
      split; [done|]. by rewrite spawned_app, app_nil_r.
    - apply retM_Ok_world in Hc' as [-> _]. simpl.
      split; [done|]. by rewrite spawned_app, app_nil_r. }
  destruct E4 as [D4 S4].
  apply bind_Ok_inv in H as (p & w5 & Hrun & H).
  apply run_Ok in Hrun as (Htool & D5 & S5).
  apply bind_Ok_inv in H as (ex & w6 & Hex & H).
  apply exists_Ok in Hex as [-> ->].
  destruct (path_exists w5 o) eqn:Ep.
  + apply bind_Ok_inv in H as (size & w7 & Hg & H).
    unfold getsize in Hg.
    assert (Hs : size = stat_size w5 o /\ w7 = record (EvGetsize o) (record (EvExists o) w5)).
    { unfold stat_size. simpl in Hg. destruct (w_files w5 !! o) eqn:Eo.
      - by inversion Hg.
      - unfold path_exists, is_file in Ep. rewrite Eo in Ep. simpl in Ep.
        unfold is_dir in *. simpl in Hg. rewrite Ep in Hg. by inversion Hg. }
    destruct Hs as [-> ->].
    assert (Hw : w_files w' = w_files w5 /\ w_dirs w' = w_dirs w5 /\
                 spawned (w_trace w') = spawned (w_trace w5) /\
                 path_exists w' o = true /\ stat_size w' o = stat_size w5 o).
    { destruct (Z.ltb 0 (stat_size w5 o)); apply retM_Ok_world in H as [-> _];
        simpl; rewrite !spawned_app, !app_nil_r; done. }
    destruct Hw as (F' & D' & S' & P' & St').
    split.
    * exists cmd', (w_files w4), p. rewrite F'. split; [done|].
      split; [congruence|]. rewrite S', S5. by rewrite S4.
    * destruct (Z.ltb 0 (stat_size w5 o)) eqn:Elt; apply retM_Ok_world in H as [_ <-].
      -- left. split; [done|]. split; [done|]. rewrite St'. by apply Z.ltb_lt.
      -- right. split; [done|]. right. rewrite St'. by apply Z.ltb_ge.
  + apply retM_Ok_world in H as [-> <-]. split.
    * exists cmd', (w_files w4), p. simpl. split; [done|].
      split; [congruence|].
      rewrite spawned_app, app_nil_r, S5. by rewrite S4.
    * right. split; [done|]. left. done.
Qed.

End VerdictFacts.

Import VerdictFacts.

(** C6 (amended). In the transcode stage with overwrite off, a file whose
    derived output exists is reported skipped after one existence check and
    no process; hence a run in which every derived output already exists
    (for instance a re-run after a run where every file succeeded), and in
    which no regular file stands where an output directory is needed,
    spawns no process and reports every file skipped and none failed. A
    file whose output is still missing is processed again: once its
    encoder has run, one more process has been spawned and the file is
    judged anew, succeeded or failed, never skipped. *)
Theorem transcode_skip_existing tool env sched (inputs : list string) format threads
  (w : world) :
  (forall A (l : list A), sched A l ≡ₚ l) ->
  (forall flag (i o : string),
     path_exists w o = true ->
     transcode_helper tool env format false threads flag (i, o) w
     = (Ok ("skipped", i), record (EvExists o) w)) /\
  (forall flag (i o : string) r (w' : world),
     path_exists w o = false ->
     transcode_helper tool env format false threads flag (i, o) w = (Ok r, w') ->
     length (spawned (w_trace w')) = S (length (spawned (w_trace w))) /\
     (r = ("", "") \/ r = ("failed", i))) /\
  (makedirs_clear w format format inputs = true ->
   Forall (fun p => path_exists w (derive_output p format format) = true) inputs ->
   exists skipped w',
     batch_transcode tool env sched inputs format false threads w
       = (Ok ([], skipped), w') /\
     skipped ≡ₚ inputs /\ spawned (w_trace w') = spawned (w_trace w)).
Proof.
  intros Hsched. split; [|split].
  { intros flag i o Hex. by apply transcode_helper_skip. }
  { intros flag i o r w' Hno H.
    destruct (transcode_helper_verdict tool env format false threads flag i o w w' r
                (or_intror Hno) H) as [(cmd & fs & p & _ & _ & Hs) V].
    split.
    - rewrite Hs, length_app. simpl. lia.
    - destruct V as [[-> _]|[-> _]]; [by left|by right]. }
  intros Hclr Hall. unfold batch_transcode.
  destruct inputs as [|p ps] eqn:Einp.
  { exists [], w. simpl. done. }
  rewrite <- Einp. rewrite <- Einp in Hclr.
  assert (Hlen : Nat.eqb (length inputs) 0 = false) by (by rewrite Einp).
  rewrite Hlen. cbv iota.
  pose proof (plan_outputs_clear format format inputs w Hclr) as Hv.
  pose proof (plan_outputs_quiet format format inputs w) as Hq.
  destruct (plan_outputs format format inputs w) as [r1 w1] eqn:Hplan.
  simpl in Hv, Hq. subst r1.
  rewrite (bind_Ok _ _ _ _ _ Hplan).
  rewrite combine_map_r.
  set (pairs := map (fun x => (x, derive_output x format format)) inputs).
  assert (Hpairs : Forall (fun io => path_exists w1 (snd io) = true) pairs).
  { unfold pairs. apply Forall_fmap. eapply Forall_impl; [rewrite Einp; exact Hall|].
    intros x Hx. simpl. by eapply path_exists_quiet. }
  assert (Hfst : map fst pairs = inputs).
  { unfold pairs. rewrite map_map. simpl. apply map_id. }
  set (thr := if String.eqb format "avif" || String.eqb format "mp4" then 1%Z else threads).
  destruct (Z.ltb 1 thr).
  - assert (Hs : Forall (fun io => path_exists w1 (snd io) = true) (sched _ pairs)).
    { by rewrite (Hsched _ pairs). }
    destruct (submit_all_skip tool env format thr (if false then " -y" else "")
                (sched _ pairs) w1 Hs) as [w2 [Hsub Hq2]].
    unfold bindM at 1. rewrite (bind_Ok _ _ _ _ _ Hsub).
    rewrite collect_transcode_skipped. cbn [liftR retM].
    exists (map fst (sched _ pairs)), w2. split; [done|]. split.
    + rewrite <- Hfst. apply Permutation_map. apply Hsched.
    + destruct (quiet_trans _ _ _ Hq Hq2) as (_ & _ & S). exact S.
  - destruct (run_seq_skip tool env format thr (if false then " -y" else "") rd_empty
                pairs w1 Hpairs) as [w2 [Hrun Hq2]].
    rewrite (bind_Ok _ _ _ _ _ Hrun).
    exists (map fst pairs), w2. split; [done|]. split.
    + by rewrite Hfst.
    + destruct (quiet_trans _ _ _ Hq Hq2) as (_ & _ & S). exact S.
Qed.

Lemma transcode_skip_existing_witness :
  (forall A (l : list A), in_order A l ≡ₚ l) /\
  path_exists (mkWorld {[ "p_jxl/a.jxl" := 9%Z ]} {[ "p_jxl" ]} []) "p_jxl/b.jxl" = false /\
  transcode_helper (tool_script (mkProc 0 "" "") []) env_default "jxl" false 4 EmptyString ("p/b.png", "p_jxl/b.jxl") (mkWorld {[ "p_jxl/a.jxl" := 9%Z ]} {[ "p_jxl" ]} [])
  = (Ok ("failed", "p/b.png"),
     snd (transcode_helper (tool_script (mkProc 0 "" "") []) env_default "jxl" false 4 EmptyString ("p/b.png", "p_jxl/b.jxl") (mkWorld {[ "p_jxl/a.jxl" := 9%Z ]} {[ "p_jxl" ]} []))) /\
  length (spawned (w_trace (snd (transcode_helper (tool_script (mkProc 0 "" "") []) env_default "jxl" false 4 EmptyString ("p/b.png", "p_jxl/b.jxl") (mkWorld {[ "p_jxl/a.jxl" := 9%Z ]} {[ "p_jxl" ]} []))))) = 1 /\
  makedirs_clear (mkWorld {[ "p_jxl/a.jxl" := 9%Z ]} {[ "p_jxl" ]} []) "jxl" "jxl" ["p/a.png"] = true /\
  Forall (fun p => path_exists (mkWorld {[ "p_jxl/a.jxl" := 9%Z ]} {[ "p_jxl" ]} [])
                     (derive_output p "jxl" "jxl") = true) ["p/a.png"] /\
  exists skipped w',
    batch_transcode (tool_script (mkProc 0 "" "") []) env_default in_order ["p/a.png"]
      "jxl" false 4 (mkWorld {[ "p_jxl/a.jxl" := 9%Z ]} {[ "p_jxl" ]} [])
    = (Ok ([], skipped), w') /\
    skipped ≡ₚ ["p/a.png"] /\
    spawned (w_trace w') = spawned (w_trace (mkWorld {[ "p_jxl/a.jxl" := 9%Z ]} {[ "p_jxl" ]} [])).
Proof.
  assert (Hs : forall A (l : list A), in_order A l ≡ₚ l) by (intros; reflexivity).
  assert (Hn : path_exists (mkWorld {[ "p_jxl/a.jxl" := 9%Z ]} {[ "p_jxl" ]} []) "p_jxl/b.jxl" = false) by (vm_compute; reflexivity).
  assert (Hh : transcode_helper (tool_script (mkProc 0 "" "") []) env_default "jxl" false 4 EmptyString ("p/b.png", "p_jxl/b.jxl") (mkWorld {[ "p_jxl/a.jxl" := 9%Z ]} {[ "p_jxl" ]} [])
               = (Ok ("failed", "p/b.png"),
                  snd (transcode_helper (tool_script (mkProc 0 "" "") []) env_default "jxl" false 4 EmptyString ("p/b.png", "p_jxl/b.jxl") (mkWorld {[ "p_jxl/a.jxl" := 9%Z ]} {[ "p_jxl" ]} [])))) by (vm_compute; reflexivity).
  assert (Hc : makedirs_clear (mkWorld {[ "p_jxl/a.jxl" := 9%Z ]} {[ "p_jxl" ]} []) "jxl" "jxl" ["p/a.png"] = true)
    by (vm_compute; reflexivity).
  assert (Hf : Forall (fun p => path_exists (mkWorld {[ "p_jxl/a.jxl" := 9%Z ]} {[ "p_jxl" ]} [])
                                  (derive_output p "jxl" "jxl") = true) ["p/a.png"]).
  { constructor; [vm_compute; reflexivity | constructor]. }
  destruct (transcode_skip_existing (tool_script (mkProc 0 "" "") []) env_default in_order
              ["p/a.png"] "jxl" 4 (mkWorld {[ "p_jxl/a.jxl" := 9%Z ]} {[ "p_jxl" ]} []) Hs) as [_ [H2 H3]].
  split; [exact Hs|]. split; [exact Hn|]. split; [exact Hh|]. split.
  { rewrite (proj1 (H2 _ _ _ _ _ Hn Hh)). vm_compute. reflexivity. }
  split; [exact Hc|]. split; [exact Hf|].
  exact (H3 Hc Hf).
Defined.

(** C6: when the encoder leaves no output on the first run, the second run
    with overwrite off spawns the encoder again and reports the file failed,
    not skipped. *)
Lemma transcode_rerun_after_failure :
  let '(r1, w1) := batch_transcode (tool_script (mkProc 0 "" "") []) env_default in_order
                     ["p/a.png"] "jxl" false 4 w_empty in
  let '(r2, w2) := batch_transcode (tool_script (mkProc 0 "" "") []) env_default in_order
                     ["p/a.png"] "jxl" false 4 w1 in
  r1 = Ok (["p/a.png"], []) /\ r2 = Ok (["p/a.png"], []) /\
  length (spawned (w_trace w1)) = 1 /\ length (spawned (w_trace w2)) = 2.
Proof. vm_compute. repeat split; reflexivity. Qed.

(** C2 (amended). The transcode stage's per-file verdict, once the encoder
    has been run, is a success exactly when the output path exists with a
    size above zero afterwards, and otherwise a failure of that input,
    whatever the exit code of the encoder (the theorem holds for every
    [tool]); the files it judges are those the encoder left. The resize
    stage's downscale reports success exactly when the output exists, and
    [single_upscale] reports success only when the output exists: neither
    looks at its size. *)
Theorem outcome_by_output tool env :
  (forall format overwrite threads flag (i o : string) (w w' : world) r,
     (overwrite = true \/ path_exists w o = false) ->
     transcode_helper tool env format overwrite threads flag (i, o) w = (Ok r, w') ->
     (exists cmd fs p, tool cmd fs = (p, w_files w') /\ w_dirs w' = w_dirs w /\
                       spawned (w_trace w') = (spawned (w_trace w) ++ [cmd])%list) /\
     ((r = ("", "") /\ path_exists w' o = true /\ (0 < stat_size w' o)%Z) \/
      (r = ("failed", i) /\ (path_exists w' o = false \/ (stat_size w' o <= 0)%Z)))) /\
  (forall (i o filter : string) (w w' : world) b msg,
     direct_downscale tool env i o filter w = (Ok (b, msg), w') ->
     b = path_exists w' o) /\
  (forall (i o : string) width height tw th (w w' : world) msg,
     single_upscale tool env i o width height tw th w = (Ok (true, msg), w') ->
     path_exists w' o = true).
Proof.
  split; [|split].
  - intros format overwrite threads flag i o w w' r Hns H.
    exact (transcode_helper_verdict tool env format overwrite threads flag i o w w' r Hns H).
  - intros i o filter w w' b msg H. unfold direct_downscale in H.
    apply bind_Ok_inv in H as (u & w1 & _ & H).
    apply bind_Ok_inv in H as (p & w2 & _ & H).
    apply bind_Ok_inv in H as (ex & w3 & Hex & H).
    apply exists_Ok in Hex as [-> ->].
    destruct (path_exists w2 o) eqn:Ep; apply retM_Ok_world in H as [-> Hb];
      inversion Hb; done.
  - intros i o width height tw th w w' msg H. unfold single_upscale in H.
    destruct (Z.eqb tw 0 && Z.eqb th 0).
    { apply retM_Ok_world in H as [_ Hb]. by inversion Hb. }
    apply bind_Ok_inv in H as (p & w1 & _ & H).
    destruct (negb (Z.eqb (returncode p) 0)).
    { apply retM_Ok_world in H as [_ Hb]. by inversion Hb. }
    apply bind_Ok_inv in H as (s & w2 & _ & H).
    apply bind_Ok_inv in H as (q & w3 & _ & H).
    apply bind_Ok_inv in H as (u & w4 & _ & H).
    apply bind_Ok_inv in H as (ex & w5 & Hex & H).
    apply exists_Ok in Hex as [-> ->].
    destruct (path_exists w4 o) eqn:Ep; apply retM_Ok_world in H as [-> Hb];
      inversion Hb; done.
Qed.

Lemma outcome_by_output_witness :
  transcode_helper (tool_script (mkProc 0 "" "") [("cjxl", 1%Z, [("p_jxl/a.jxl", 7%Z)])])
    env_default "jxl" true 4 " -y" ("p/a.png", "p_jxl/a.jxl") w_empty
  = (Ok ("", ""), snd (transcode_helper (tool_script (mkProc 0 "" "") [("cjxl", 1%Z, [("p_jxl/a.jxl", 7%Z)])])
                         env_default "jxl" true 4 " -y" ("p/a.png", "p_jxl/a.jxl") w_empty)) /\
  path_exists (snd (transcode_helper (tool_script (mkProc 0 "" "") [("cjxl", 1%Z, [("p_jxl/a.jxl", 7%Z)])])
                      env_default "jxl" true 4 " -y" ("p/a.png", "p_jxl/a.jxl") w_empty))
    "p_jxl/a.jxl" = true.
Proof.
  assert (H : transcode_helper (tool_script (mkProc 0 "" "") [("cjxl", 1%Z, [("p_jxl/a.jxl", 7%Z)])])
                env_default "jxl" true 4 " -y" ("p/a.png", "p_jxl/a.jxl") w_empty
              = (Ok ("", ""), snd (transcode_helper (tool_script (mkProc 0 "" "") [("cjxl", 1%Z, [("p_jxl/a.jxl", 7%Z)])])
                                     env_default "jxl" true 4 " -y" ("p/a.png", "p_jxl/a.jxl") w_empty)))
    by (vm_compute; reflexivity).
  split; [exact H|].
  destruct (proj1 (outcome_by_output (tool_script (mkProc 0 "" "") [("cjxl", 1%Z, [("p_jxl/a.jxl", 7%Z)])])
                     env_default) "jxl" true 4%Z " -y" "p/a.png" "p_jxl/a.jxl" w_empty _ _
              (or_introl eq_refl) H) as [_ [(_ & Hp & _) | (Hc & _)]].
  - exact Hp.
  - inversion Hc.
Defined.

(** C2: the resize stage reports a success for an output of size zero, in
    its downscale branch (an input of 4000x3000 pixels with a target width of
    2500) as in its upscale branch (100x100 pixels with a target width of
    400, upscaled by 4 without correction). *)
Lemma resize_zero_size_output_success :
  fst (batch_resize (tool_script (mkProc 0 "4000x3000" "") [("ffmpeg", 0%Z, [("p_upscaled/a.png", 0%Z)])])
         env_default in_order ["p/a.png"] 4 2500 0 w_empty) = Ok (inr ([], "p_upscaled")) /\
  w_files (snd (batch_resize (tool_script (mkProc 0 "4000x3000" "") [("ffmpeg", 0%Z, [("p_upscaled/a.png", 0%Z)])])
                  env_default in_order ["p/a.png"] 4 2500 0 w_empty)) !! "p_upscaled/a.png" = Some 0%Z /\
  fst (batch_resize (tool_script (mkProc 0 "100x100" "") [("realesrgan", 0%Z, [("p_upscaled/a.png", 0%Z)])])
         env_default in_order ["p/a.png"] 4 400 0 w_empty) = Ok (inr ([], "p_upscaled")) /\
  w_files (snd (batch_resize (tool_script (mkProc 0 "100x100" "") [("realesrgan", 0%Z, [("p_upscaled/a.png", 0%Z)])])
                  env_default in_order ["p/a.png"] 4 400 0 w_empty)) !! "p_upscaled/a.png" = Some 0%Z.
Proof. repeat split; vm_compute; reflexivity. Qed.

Module CorrectiveFacts.



End CorrectiveFacts.

Import CorrectiveFacts.



(** C8: the replacement does not check the downscale. A 100x100 input with a
    target width of 250 is upscaled by 3 to an output of size 500; when
    [ffmpeg] exits with 1 leaving an empty sibling file, that file is renamed
    onto the output and the upscale reports success; when [ffmpeg] leaves no
    sibling file, the upscaled output has been deleted and the rename raises
    [FileNotFoundError]. *)
Lemma corrective_downscale_unchecked :
  single_upscale (tool_script (mkProc 0 "100x100" "")
                    [("realesrgan", 0%Z, [("p_upscaled/a.png", 500%Z)]);
                     ("ffmpeg", 1%Z, [("p_upscaled/a.png.png", 0%Z)])])
    env_default "p/a.png" "p_upscaled/a.png" 100 100 250 0 w_empty
  = (Ok (true, "p/a.png"),
     snd (single_upscale (tool_script (mkProc 0 "100x100" "")
                            [("realesrgan", 0%Z, [("p_upscaled/a.png", 500%Z)]);
                             ("ffmpeg", 1%Z, [("p_upscaled/a.png.png", 0%Z)])])
            env_default "p/a.png" "p_upscaled/a.png" 100 100 250 0 w_empty)) /\
  w_files (snd (single_upscale (tool_script (mkProc 0 "100x100" "")
                                  [("realesrgan", 0%Z, [("p_upscaled/a.png", 500%Z)]);
                                   ("ffmpeg", 1%Z, [("p_upscaled/a.png.png", 0%Z)])])
                  env_default "p/a.png" "p_upscaled/a.png" 100 100 250 0 w_empty))
    !! "p_upscaled/a.png" = Some 0%Z /\
  fst (single_upscale (tool_script (mkProc 0 "100x100" "")
                         [("realesrgan", 0%Z, [("p_upscaled/a.png", 500%Z)]);
                          ("ffmpeg", 1%Z, [])])
         env_default "p/a.png" "p_upscaled/a.png" 100 100 250 0 w_empty)
  = Raise "FileNotFoundError" /\
  w_files (snd (single_upscale (tool_script (mkProc 0 "100x100" "")
                                  [("realesrgan", 0%Z, [("p_upscaled/a.png", 500%Z)]);
                                   ("ffmpeg", 1%Z, [])])
                  env_default "p/a.png" "p_upscaled/a.png" 100 100 250 0 w_empty))
    !! "p_upscaled/a.png" = None.
Proof. repeat split; vm_compute; reflexivity. Qed.

(** C9 (code defect). The probe returns the sentinel (-1, -1) whenever
    [ffprobe] exits with a non-zero code; but when it exits with 0 and its
    output holds no [x] (for instance an empty output, as for a file with no
    video stream), [get_dimension] raises [ValueError] instead of returning a
    result, and so does the resize stage that calls it. *)
Theorem get_dimension_outcomes tool (path : string) (w : world) :
  (returncode (fst (tool (probe_cmd path) (w_files w))) <> 0%Z ->
   fst (get_dimension tool path w) = Ok ((-1)%Z, (-1)%Z)) /\
  (returncode (fst (tool (probe_cmd path) (w_files w))) = 0%Z ->
   no_char "x"%char (stdout (fst (tool (probe_cmd path) (w_files w)))) = true ->
   fst (get_dimension tool path w) = Raise "ValueError") /\
  fst (batch_resize (tool_script (mkProc 0 "" "") []) env_default in_order ["p/a.png"] 4 2500 0 w_empty)
  = Raise "ValueError".
Proof.
  unfold get_dimension, bindM, run.
  destruct (tool (probe_cmd path) (w_files w)) as [p fs]. simpl.
  split; [|split].
  - intros Hc. apply Z.eqb_neq in Hc. by rewrite Hc.
  - intros Hc Hx. rewrite Hc. simpl.
    assert (Hs : split "x"%char (stdout p) = [stdout p]).
    { unfold split. pose proof (split_go_app "x"%char (stdout p) EmptyString EmptyString Hx) as E.
      rewrite sapp_nil_r, sapp_nil_l in E. exact E. }
    by rewrite Hs.
  - vm_compute. reflexivity.
Qed.

Lemma get_dimension_outcomes_witness :
  fst (get_dimension (tool_script (mkProc 1 "" "") []) "p/a.png" w_empty) = Ok ((-1)%Z, (-1)%Z) /\
  fst (get_dimension (tool_script (mkProc 0 "" "") []) "p/a.png" w_empty) = Raise "ValueError".
Proof.
  split.
  - apply (proj1 (get_dimension_outcomes (tool_script (mkProc 1 "" "") []) "p/a.png" w_empty)).
    vm_compute. intros Hc. discriminate Hc.
  - apply (proj1 (proj2 (get_dimension_outcomes (tool_script (mkProc 0 "" "") []) "p/a.png" w_empty)));
      vm_compute; reflexivity.
Defined.

(* ================================================================== *)
(** ** Further properties of main.py *)

(* ================================================================== *)
(** * Further properties of main.py *)

Module NumFacts.
Import PyStr PyNum.

Lemma digit_char_val (d : Z) :
  (0 <= d < 10)%Z -> digit_val (ascii_of_nat (48 + Z.to_nat d)) = Some d.
Proof.
  intros Hd.
  assert (d = 0 \/ d = 1 \/ d = 2 \/ d = 3 \/ d = 4 \/ d = 5 \/ d = 6 \/ d = 7 \/ d = 8 \/ d = 9)%Z
    as Hc by lia.
  repeat destruct Hc as [-> | Hc]; [reflexivity ..|]. subst. reflexivity.
Qed.

Lemma digit_char_props (a : ascii) d :
  digit_val a = Some d ->
  is_space a = false /\ Ascii.eqb a "x"%char = false /\
  forall {B} (l : list ascii) (x y z : B),
    match a :: l with "-"%char :: _ => x | "+"%char :: _ => y | _ => z end = z.
Proof.
  unfold digit_val.
  destruct a as [[] [] [] [] [] [] [] []]; cbv -[Z.of_nat]; intros H;
    try discriminate H; (split; [reflexivity|]); (split; [reflexivity|]); intros; reflexivity.
Qed.

Lemma parse_digits_step (d : Z) (l : list ascii) acc p :
  (0 <= d < 10)%Z ->
  parse_digits (ascii_of_nat (48 + Z.to_nat d) :: l) acc p = parse_digits l (acc * 10 + d) true.
Proof. intros Hd. cbn [parse_digits]. by rewrite digit_char_val. Qed.

Lemma digits_go_S f n acc :
  digits_go (S f) n acc
  = (if Z.eqb (n / 10) 0 then String (ascii_of_nat (48 + Z.to_nat (n mod 10))) acc
     else digits_go f (n / 10) (String (ascii_of_nat (48 + Z.to_nat (n mod 10))) acc)).
Proof. reflexivity. Qed.

Lemma digits_go_parse fuel : forall n acc p,
  (0 <= n < 10 ^ Z.of_nat (S fuel))%Z ->
  parse_digits (list_ascii_of_string (digits_go (S fuel) n acc)) 0 p
  = parse_digits (list_ascii_of_string acc) n true.
Proof.
  induction fuel as [|f IH]; intros n acc p Hn.
  - rewrite digits_go_S. assert (Hq : (n / 10 = 0)%Z) by (apply Z.div_small; lia).
    rewrite Hq. simpl Z.eqb. cbv iota. cbn [list_ascii_of_string].
    rewrite parse_digits_step by (apply Z.mod_pos_bound; lia).
    rewrite Z.mod_small by lia. f_equal.
  - rewrite digits_go_S. destruct (Z.eqb (n / 10) 0) eqn:Eq.
    + cbn [list_ascii_of_string].
      rewrite parse_digits_step by (apply Z.mod_pos_bound; lia).
      apply Z.eqb_eq in Eq. f_equal. pose proof (Z.div_mod n 10). lia.
    + rewrite IH.
      * cbn [list_ascii_of_string].
        rewrite parse_digits_step by (apply Z.mod_pos_bound; lia).
        f_equal. pose proof (Z.div_mod n 10). lia.
      * split; [apply Z.div_pos; lia|]. apply Z.div_lt_upper_bound; [lia|].
        rewrite Nat2Z.inj_succ, Z.pow_succ_r in Hn by lia. lia.
Qed.

Lemma digits_go_digits fuel : forall n acc,
  Forall (fun a => digit_val a <> None) (list_ascii_of_string acc) ->
  (0 <= n)%Z ->
  Forall (fun a => digit_val a <> None) (list_ascii_of_string (digits_go fuel n acc)).
Proof.
  induction fuel as [|f IH]; intros n acc Hacc Hn; [done|].
  rewrite digits_go_S.
  assert (Hd : Forall (fun a => digit_val a <> None)
                 (list_ascii_of_string (String (ascii_of_nat (48 + Z.to_nat (n mod 10))) acc))).
  { cbn [list_ascii_of_string]. constructor; [|done].
    rewrite digit_char_val; [done|]. apply Z.mod_pos_bound; lia. }
  destruct (Z.eqb (n / 10) 0); [done|]. apply IH; [done|]. apply Z.div_pos; lia.
Qed.

Lemma digits_go_nonempty fuel n acc : digits_go (S fuel) n acc <> EmptyString.
Proof.
  revert n acc; induction fuel as [|f IH]; intros n acc; rewrite digits_go_S;
    [by destruct (Z.eqb (n / 10) 0)|]. destruct (Z.eqb (n / 10) 0); [done|]. apply IH.
Qed.

Lemma str_of_Z_nonneg (n : Z) :
  (0 <= n)%Z -> str_of_Z n = digits_go (S (Z.to_nat (Z.log2 n))) n EmptyString.
Proof. intros Hn. unfold str_of_Z. destruct (Z.ltb_spec n 0%Z); [lia|done]. Qed.

Lemma log2_bound (n : Z) : (0 <= n)%Z -> (n < 10 ^ Z.of_nat (S (Z.to_nat (Z.log2 n))))%Z.
Proof.
  intros Hn. rewrite Nat2Z.inj_succ, Z2Nat.id by apply Z.log2_nonneg.
  destruct (Z.eq_dec n 0%Z) as [->|Hn0]; [reflexivity|].
  destruct (Z.log2_spec n) as [_ Hup]; [lia|].
  eapply Z.lt_le_trans; [exact Hup|].
  apply Z.pow_le_mono_l. split; [lia|lia].
Qed.

End NumFacts.

Module IntFacts.
Import PyStr PyNum StrFacts NumFacts.

Lemma list_ascii_app (a b : string) :
  list_ascii_of_string (a +:+ b) = (list_ascii_of_string a ++ list_ascii_of_string b)%list.
Proof. induction a as [|x a IH]; [done|]. rewrite sapp_cons. simpl. by rewrite IH. Qed.

Lemma unsigned_digits (d : ascii) (l : list ascii) :
  digit_val d <> None ->
  match d :: l with
  | "-"%char :: l' => ((-1)%Z, l')
  | "+"%char :: l' => (1%Z, l')
  | _ => (1%Z, d :: l)
  end = (1%Z, d :: l).
Proof.
  unfold digit_val. destruct d as [[] [] [] [] [] [] [] []]; cbv -[Z.of_nat];
    intros H; try reflexivity; by destruct H.
Qed.

Lemma digit_not_space (a : ascii) : digit_val a <> None -> is_space a = false.
Proof.
  intros H. destruct (digit_val a) as [d|] eqn:E; [|done].
  by destruct (digit_char_props a d E).
Qed.

Lemma digit_not_x (a : ascii) : digit_val a <> None -> Ascii.eqb a "x"%char = false.
Proof.
  intros H. destruct (digit_val a) as [d|] eqn:E; [|done].
  by destruct (digit_char_props a d E) as [_ [? _]].
Qed.

Lemma strip_left_digits (l : list ascii) :
  Forall (fun a => digit_val a <> None) l -> strip_left l = l.
Proof. intros [|a l' Ha _]; [done|]. simpl. by rewrite digit_not_space. Qed.

Lemma strip_left_spaces (t l : list ascii) :
  Forall (fun a => is_space a = true) t -> strip_left (t ++ l) = strip_left l.
Proof. induction 1 as [|a t Ha _ IH]; [done|]. simpl. by rewrite Ha. Qed.

Lemma str_of_Z_digits (n : Z) :
  (0 <= n)%Z ->
  Forall (fun a => digit_val a <> None) (list_ascii_of_string (str_of_Z n)) /\
  str_of_Z n <> EmptyString /\
  parse_digits (list_ascii_of_string (str_of_Z n)) 0 false = Some n.
Proof.
  intros Hn. rewrite str_of_Z_nonneg by done. split; [|split].
  - apply digits_go_digits; [constructor|done].
  - apply digits_go_nonempty.
  - rewrite digits_go_parse; [done|]. split; [done|]. by apply log2_bound.
Qed.

(** [int(str(n) + t)] is [n] for whitespace [t]. *)
Lemma py_int_str_of_Z (n : Z) (t : string) :
  (0 <= n)%Z -> Forall (fun a => is_space a = true) (list_ascii_of_string t) ->
  py_int (str_of_Z n +:+ t) = Ok n.
Proof.
  intros Hn Ht. destruct (str_of_Z_digits n Hn) as (Hd & Hne & Hp).
  unfold py_int. cbv zeta.
  rewrite list_ascii_app.
  remember (list_ascii_of_string (str_of_Z n)) as D eqn:ED.
  remember (list_ascii_of_string t) as T eqn:ET.
  destruct D as [|d D'].
  { destruct (str_of_Z n); [done|discriminate]. }
  assert (Hd0 : digit_val d <> None) by (by apply Forall_cons in Hd as [? _]).
  assert (Hl : rev (strip_left (rev (strip_left ((d :: D') ++ T)%list))) = d :: D').
  { cbn [app strip_left]. rewrite digit_not_space by done.
    change (d :: D' ++ T)%list with ((d :: D') ++ T)%list. rewrite rev_app_distr.
    rewrite strip_left_spaces by (by apply Forall_rev).
    rewrite strip_left_digits by (by apply Forall_rev). apply rev_involutive. }
  rewrite Hl. rewrite unsigned_digits by done.
  cbn [snd fst]. rewrite Hp. f_equal. lia.
Qed.

End IntFacts.

Module SplitFacts.
Import PyStr StrFacts Aux.

Lemma split_go_sep c (a b : string) cur :
  split_go c (a +:+ String c b) cur = (split_go c a cur ++ split_go c b EmptyString)%list.
Proof.
  revert cur; induction a as [|x a IH]; intros cur.
  - rewrite sapp_nil_l. simpl. by rewrite Ascii.eqb_refl.
  - rewrite sapp_cons. simpl. destruct (Ascii.eqb x c); simpl; by rewrite IH.
Qed.

Lemma split_no_char c (s : string) : no_char c s = true -> split c s = [s].
Proof.
  intros H. unfold split. pose proof (split_go_app c s EmptyString EmptyString H) as E.
  by rewrite sapp_nil_r, sapp_nil_l in E.
Qed.

Lemma no_char_of_Forall c (s : string) :
  Forall (fun a => Ascii.eqb a c = false) (list_ascii_of_string s) -> no_char c s = true.
Proof.
  induction s as [|a s IH]; [done|]. simpl. intros H. apply Forall_cons in H as [Ha H].
  rewrite Ha. simpl. by apply IH.
Qed.

End SplitFacts.

Module DimFacts.
Import PyStr PyNum Sys Pipeline StrFacts MFacts NumFacts IntFacts SplitFacts Aux.

Lemma space_not_x (a : ascii) : is_space a = true -> Ascii.eqb a "x"%char = false.
Proof.
  intros H. destruct (Ascii.eqb_spec a "x"%char) as [->|]; [|done]. vm_compute in H. discriminate.
Qed.

Lemma split_dims (W H : Z) (t : string) :
  (0 <= W)%Z -> (0 <= H)%Z -> Forall (fun a => is_space a = true) (list_ascii_of_string t) ->
  split "x"%char (str_of_Z W +:+ "x" +:+ str_of_Z H +:+ t) = [str_of_Z W; str_of_Z H +:+ t].
Proof.
  intros HW HH Ht.
  destruct (str_of_Z_digits W HW) as [DW _]. destruct (str_of_Z_digits H HH) as [DH _].
  assert (NW : no_char "x"%char (str_of_Z W) = true).
  { apply no_char_of_Forall. eapply Forall_impl; [exact DW|]. intros a Ha. by apply digit_not_x. }
  assert (NH : no_char "x"%char (str_of_Z H +:+ t) = true).
  { apply no_char_of_Forall. rewrite list_ascii_app. apply Forall_app. split.
    - eapply Forall_impl; [exact DH|]. intros a Ha. by apply digit_not_x.
    - eapply Forall_impl; [exact Ht|]. intros a Ha. by apply space_not_x. }
  unfold split. rewrite (sapp_cons "x"%char EmptyString), sapp_nil_l.
  rewrite split_go_sep. pose proof (split_no_char _ _ NW) as E1. pose proof (split_no_char _ _ NH) as E2.
  unfold split in E1, E2. rewrite E1, E2. done.
Qed.

End DimFacts.

Module DimThm.
Import PyStr PyNum Sys Pipeline StrFacts MFacts NumFacts IntFacts SplitFacts DimFacts Aux.

(** [get_dimension] decodes the probe output: when [ffprobe] exits with 0
    and prints [<W>x<H>], two non-negative decimal numbers, followed only
    by whitespace, it returns [(W, H)]. *)
Theorem get_dimension_decodes tool (path : string) (w : world) (W H : Z) (t : string) :
  returncode (fst (tool (probe_cmd path) (w_files w))) = 0%Z ->
  stdout (fst (tool (probe_cmd path) (w_files w))) = str_of_Z W +:+ "x" +:+ str_of_Z H +:+ t ->
  (0 <= W)%Z -> (0 <= H)%Z ->
  Forall (fun a => is_space a = true) (list_ascii_of_string t) ->
  fst (get_dimension tool path w) = Ok (W, H).
Proof.
  intros Hc Ho HW HH Ht. unfold get_dimension, bindM, run.
  destruct (tool (probe_cmd path) (w_files w)) as [p fs]. simpl in *.
  rewrite Hc. simpl. rewrite Ho, (split_dims W H t HW HH Ht).
  rewrite <- (sapp_nil_r (str_of_Z W)) at 1.
  rewrite (py_int_str_of_Z W EmptyString HW (List.Forall_nil _)).
  rewrite (py_int_str_of_Z H t HH Ht). done.
Qed.

Lemma get_dimension_decodes_witness :
  fst (get_dimension (tool_script (mkProc 0 "1920x1080" "") []) "p/a.png" w_empty) = Ok (1920%Z, 1080%Z).
Proof.
  apply (get_dimension_decodes (tool_script (mkProc 0 "1920x1080" "") []) "p/a.png" w_empty 1920 1080 EmptyString).
  - vm_compute. reflexivity.
  - vm_compute. reflexivity.
  - lia.
  - lia.
  - constructor.
Defined.

End DimThm.

Module NormFacts.
Import PyStr Pipeline StrFacts Aux Vocab.

Lemma substring_all (s : string) m : String.length s <= m -> substring 0 m s = s.
Proof.
  revert m; induction s as [|a s IH]; intros m Hm; [by destruct m|].
  destruct m as [|m]; simpl in *; [lia|]. rewrite IH by lia. done.
Qed.

Lemma prefix_one (a b : ascii) (s : string) :
  String.prefix (String b EmptyString) (String a s) = Ascii.eqb a b.
Proof.
  cbn. destruct (Ascii.eqb_spec a b); destruct (ascii_dec b a); try congruence;
  by destruct s.
Qed.

Lemma replace_go_char fuel (b : ascii) (new s : string) :
  String.length s < fuel ->
  replace_go fuel (String b EmptyString) new s = replace_char b new s.
Proof.
  revert s; induction fuel as [|f IH]; intros s Hs; [simpl in Hs; lia|].
  destruct s as [|a s]; [done|]. simpl in Hs.
  cbn [replace_go replace_char]. cbn [String.eqb negb andb].
  rewrite prefix_one. destruct (Ascii.eqb a b).
  - simpl. rewrite substring_all by lia. rewrite IH by lia. done.
  - simpl. rewrite IH by lia. done.
Qed.

Lemma replace_one_char (b : ascii) (new s : string) :
  replace (String b EmptyString) new s = replace_char b new s.
Proof. unfold replace. apply replace_go_char. lia. Qed.

Lemma replace_char_app (b : ascii) (new s t : string) :
  replace_char b new (s +:+ t) = replace_char b new s +:+ replace_char b new t.
Proof.
  induction s as [|a s IH]; [done|]. rewrite sapp_cons. simpl.
  destruct (Ascii.eqb a b); rewrite IH; [by rewrite sapp_assoc | done].
Qed.

Lemma replace_char_id (b : ascii) (new s : string) :
  no_char b s = true -> replace_char b new s = s.
Proof.
  induction s as [|a s IH]; [done|]. simpl. intros H. apply andb_prop in H as [Ha Hs].
  apply negb_true_iff in Ha. rewrite Ha. by rewrite IH.
Qed.

Lemma replace_char_no_char (b : ascii) (new s : string) :
  no_char b new = true -> no_char b (replace_char b new s) = true.
Proof.
  intros Hn. induction s as [|a s IH]; [done|]. simpl.
  destruct (Ascii.eqb a b) eqn:E.
  - by rewrite no_char_app, Hn, IH.
  - simpl. by rewrite E, IH.
Qed.

Lemma normpath_nonempty (p : string) : normpath p <> EmptyString.
Proof.
  unfold normpath. destruct (String.eqb p EmptyString); [discriminate|].
  cbv zeta. match goal with |- (if String.eqb ?r EmptyString then _ else _) <> _ =>
    destruct (String.eqb_spec r EmptyString) end; [discriminate | done].
Qed.

Lemma norm_eq (p : string) : norm p = replace_char backslash "/" (normpath p).
Proof. unfold norm. apply replace_one_char. Qed.

Lemma norm_props (p : string) :
  norm p <> EmptyString /\ no_char backslash (norm p) = true.
Proof.
  rewrite norm_eq. split.
  - pose proof (normpath_nonempty p) as H. destruct (normpath p) as [|a s]; [done|].
    simpl. destruct (Ascii.eqb a backslash); [|discriminate].
    rewrite sapp_cons. discriminate.
  - apply replace_char_no_char. done.
Qed.

End NormFacts.

Module NormThm.
Import PyStr Pipeline StrFacts Aux Vocab NormFacts.

(** [norm] never returns the empty string and never returns a backslash:
    [normpath] gives at least [.] and every backslash is replaced by [/]. *)
Theorem norm_shape (p : string) :
  norm p <> EmptyString /\ no_char backslash (norm p) = true.
Proof. apply norm_props. Qed.

End NormThm.

Module ListFacts.
Import PyStr Pipeline StrFacts Aux Rest Vocab NormFacts SplitFacts IntFacts.

Lemma string_of_list_ascii_app (k l : list ascii) :
  string_of_list_ascii (k ++ l) = string_of_list_ascii k +:+ string_of_list_ascii l.
Proof. induction k as [|a k IH]; [done|]. simpl. by rewrite IH. Qed.

Lemma endswith_inv (s e : string) : endswith s e = true -> exists j, s = j +:+ e.
Proof.
  unfold endswith. rewrite bool_decide_eq_true. intros [k Hk].
  exists (string_of_list_ascii k).
  rewrite <- (string_of_list_ascii_of_string s), Hk, string_of_list_ascii_app.
  by rewrite string_of_list_ascii_of_string.
Qed.

Lemma endswith_app (j e : string) : endswith (j +:+ e) e = true.
Proof.
  unfold endswith. rewrite bool_decide_eq_true, list_ascii_app.
  by exists (list_ascii_of_string j).
Qed.

Lemma name_ok_props (i : string) :
  name_ok i = true ->
  no_char slash i = true /\ i <> EmptyString /\ i <> "." /\ i <> "..".
Proof.
  unfold name_ok. intros H. apply andb_prop in H as [H H4]. apply andb_prop in H as [H H3].
  apply andb_prop in H as [H1 H2]. apply negb_true_iff in H2, H3, H4.
  apply String.eqb_neq in H2, H3, H4. done.
Qed.

Lemma startswith_no_slash (i : string) : no_char slash i = true -> startswith i "/" = false.
Proof.
  destruct i as [|a i]; [done|]. intros H. cbn [no_char] in H. apply andb_prop in H as [Ha _].
  apply negb_true_iff in Ha. unfold startswith. by rewrite prefix_one.
Qed.

Lemma split_path_join (path i : string) :
  no_char slash i = true ->
  exists l, split slash (path_join path i) = (l ++ [i])%list.
Proof.
  intros Hi. unfold path_join. rewrite (startswith_no_slash i Hi).
  destruct (String.eqb_spec path EmptyString) as [->|Hne]; simpl.
  - exists []. rewrite sapp_nil_l. by apply split_no_char.
  - destruct (endswith path "/") eqn:E; simpl.
    + destruct (endswith_inv _ _ E) as [q ->]. exists (split slash q).
      rewrite sapp_assoc. change ("/" +:+ i) with (String slash i).
      unfold split. rewrite split_go_sep. pose proof (split_no_char _ _ Hi) as Hs.
      unfold split in Hs. by rewrite Hs.
    + exists (split slash path). change ("/" +:+ i) with (String slash i).
      unfold split. rewrite split_go_sep. pose proof (split_no_char _ _ Hi) as Hs.
      unfold split in Hs. by rewrite Hs.
Qed.

Lemma str_length_app (a b : string) : String.length (a +:+ b) = String.length a + String.length b.
Proof. induction a as [|x a IH]; [done|]. rewrite sapp_cons. simpl. by rewrite IH. Qed.

Lemma join_snoc (sep : string) (l : list string) (x : string) :
  exists y, join sep (l ++ [x])%list = y +:+ x.
Proof.
  induction l as [|a l IH].
  - exists EmptyString. done.
  - destruct IH as [y Hy]. destruct l as [|b l].
    + exists (a +:+ sep). simpl. by rewrite sapp_assoc.
    + exists (a +:+ sep +:+ y).
      change (join sep (b :: (l ++ [x]))%list = y +:+ x) in Hy.
      change (join sep ((a :: b :: l) ++ [x])%list) with (a +:+ sep +:+ join sep (b :: (l ++ [x]))%list).
      by rewrite Hy, !sapp_assoc.
Qed.

Lemma normpath_snoc (s : string) (l : list string) (i : string) :
  name_ok i = true -> split slash s = (l ++ [i])%list ->
  exists x, normpath s = x +:+ i.
Proof.
  intros Hi Hs. destruct (name_ok_props i Hi) as (Hi1 & Hi2 & Hi3 & Hi4).
  unfold normpath. destruct (String.eqb_spec s EmptyString) as [->|Hne].
  { exfalso. destruct l as [|a [|b l]]; simpl in Hs; inversion Hs; subst; done. }
  cbv zeta. rewrite Hs, fold_left_app. cbn [fold_left].
  apply String.eqb_neq in Hi2, Hi3, Hi4. rewrite Hi2, Hi3, Hi4. cbn [orb negb].
  match goal with |- context [rev (i :: ?r)] =>
    change (rev (i :: r)) with (rev r ++ [i])%list;
    destruct (join_snoc "/" (rev r) i) as [y Hy]; rewrite Hy end.
  match goal with |- context [String.eqb (?P +:+ (y +:+ i)) EmptyString] =>
    exists (P +:+ y); rewrite sapp_assoc;
    destruct (String.eqb_spec (P +:+ (y +:+ i)) EmptyString) as [E|]; [|done] end.
  exfalso. apply (f_equal String.length) in E. rewrite !str_length_app in E.
  apply String.eqb_neq in Hi2. destruct i; [done|]. simpl in E. lia.
Qed.

End ListFacts.

Module ListThm.
Import PyStr Pipeline StrFacts Aux Rest Vocab NormFacts SplitFacts ListFacts.

Lemma entry_nested_ind (P : entry -> Prop) :
  (forall i, P (EFile i)) -> (forall i cs, Forall P cs -> P (EDir i cs)) -> forall e, P e.
Proof.
  intros Hf Hd.
  refine (fix IH e := match e with
    | EFile i => Hf i
    | EDir i cs => Hd i cs ((fix go (l : list entry) : Forall P l :=
        match l with
        | [] => List.Forall_nil _
        | c :: l' => @List.Forall_cons _ P c l' (IH c) (go l')
        end) cs)
    end).
Qed.

Lemma norm_path_join_ends (path i x : string) :
  name_ok i = true -> endswith i x = true -> no_char backslash x = true ->
  endswith (norm (path_join path i)) x = true.
Proof.
  intros Hi Hx Hb. destruct (name_ok_props i Hi) as (Hi1 & _).
  destruct (split_path_join path i Hi1) as [l Hl].
  destruct (normpath_snoc _ l i Hi Hl) as [y Hy].
  destruct (endswith_inv i x Hx) as [j ->].
  rewrite norm_eq, Hy, !replace_char_app, (replace_char_id _ _ x Hb), <- sapp_assoc.
  apply endswith_app.
Qed.

Lemma list_entry_ends (ext : list string) (recursive : bool) (e : entry) :
  forall path p, entry_ok e = true -> Forall (fun x => no_char backslash x = true) ext ->
  p ∈ list_entry path ext recursive e ->
  (exists x, x ∈ ext /\ endswith p x = true) /\ exists q, p = norm q.
Proof.
  induction e as [i|i cs IH] using entry_nested_ind; intros path p Hok Hext Hp; simpl in Hp.
  - destruct (endswith_any i ext) eqn:E; [|by apply elem_of_nil in Hp].
    apply list_elem_of_singleton in Hp as ->.
    unfold endswith_any in E. apply existsb_exists in E as [x [Hx Hix]].
    split; [|by eexists].
    exists x. split; [by apply list_elem_of_In|].
    apply norm_path_join_ends; [done|done|]. rewrite Forall_forall in Hext. apply Hext.
    by apply list_elem_of_In.
  - simpl in Hok. apply andb_prop in Hok as [_ Hcs].
    destruct recursive; [|by apply elem_of_nil in Hp].
    apply list_elem_of_In, in_flat_map in Hp as [c [Hc Hpc]].
    rewrite Forall_forall in IH.
    apply (IH c (proj2 (list_elem_of_In _ _) Hc) (path_join path i) p); [|done|by apply list_elem_of_In].
    apply forallb_forall with (x := c) in Hcs; done.
Qed.

(** Every path [list_files] returns, for a directory tree whose names are
    plain names (no slash, not empty, not [.] or [..]) and extensions with
    no backslash, ends with one of the extensions, is not empty and has
    no backslash. *)
Theorem list_files_listed (path : string) (ext : list string) (recursive : bool)
  (listing : list entry) (p : string) :
  Forall (fun e => entry_ok e = true) listing ->
  Forall (fun x => no_char backslash x = true) ext ->
  p ∈ list_files path ext recursive listing ->
  (exists x, x ∈ ext /\ endswith p x = true) /\ p <> EmptyString /\ no_char backslash p = true.
Proof.
  intros Hl Hext Hp. unfold list_files in Hp.
  destruct (String.eqb path EmptyString); [by apply elem_of_nil in Hp|].
  unfold list_files_go in Hp. apply list_elem_of_In, in_flat_map in Hp as [e [He Hpe]].
  rewrite Forall_forall in Hl.
  destruct (list_entry_ends ext recursive e path p (Hl e (proj2 (list_elem_of_In _ _) He)) Hext
              (proj2 (list_elem_of_In _ _) Hpe)) as [Hx [q ->]].
  split; [done|]. apply norm_props.
Qed.

Lemma list_files_listed_witness :
  (exists x, x ∈ [".png"; ".jpg"] /\ endswith "pack/sub/c.jpg" x = true) /\
  "pack/sub/c.jpg" <> EmptyString /\ no_char backslash "pack/sub/c.jpg" = true.
Proof.
  apply (list_files_listed "pack" [".png"; ".jpg"] true
           [EFile "a.png"; EFile "b.txt"; EDir "sub" [EFile "c.jpg"]] "pack/sub/c.jpg").
  - repeat constructor.
  - repeat constructor.
  - apply list_elem_of_In. vm_compute. tauto.
Defined.

End ListThm.

Module DirFacts.
Import PyStr Sys Pipeline StrFacts Aux Vocab PlanFacts QuietFacts.

Lemma join_split_go (c : ascii) (s cur : string) :
  join (String c EmptyString) (split_go c s cur) = cur +:+ s.
Proof.
  revert cur; induction s as [|a s IH]; intros cur; simpl.
  - by rewrite sapp_nil_r.
  - destruct (Ascii.eqb_spec a c) as [->|Hne].
    + pose proof (split_go_nonempty c s EmptyString) as Hne.
      destruct (split_go c s EmptyString) as [|x l] eqn:E; [done|].
      change (join (String c EmptyString) (cur :: x :: l))
        with (cur +:+ String c EmptyString +:+ join (String c EmptyString) (x :: l)).
      rewrite <- E, IH, sapp_nil_l. done.
    + rewrite IH, sapp_assoc. done.
Qed.




End DirFacts.

Module ReportFacts.
Import PyStr Sys Pipeline StrFacts Aux MFacts VerdictFacts.

(** The paths a helper result adds to the failed and skipped lists. *)
Definition rep (r : string * string) : list string :=
  if String.eqb r.1 "failed" || String.eqb r.1 "skipped" then [r.2] else [].

Definition rep_res (r : res (string * string)) : list string :=
  match r with Ok x => rep x | Raise _ => [] end.

Lemma bind_fst_Ok {A B} (m : M A) (k : A -> M B) w (r : B) :
  fst (bindM m k w) = Ok r -> exists a w1, m w = (Ok a, w1) /\ fst (k a w1) = Ok r.
Proof. unfold bindM. destruct (m w) as [[a|e] w1]; simpl; [eauto|discriminate]. Qed.

Lemma transcode_helper_result tool env format overwrite threads flag (i o : string)
  (w : world) r w' :
  transcode_helper tool env format overwrite threads flag (i, o) w = (Ok r, w') ->
  r = ("skipped", i) \/ r = ("failed", i) \/ r = (EmptyString, EmptyString).
Proof.
  unfold transcode_helper. intros H.
  apply bind_Ok_inv in H as (ex & w1 & _ & H).
  destruct (ex && negb overwrite); [inversion H; auto|].
  apply bind_Ok_inv in H as (template & w2 & _ & H).
  apply bind_Ok_inv in H as (cmd & w3 & _ & H).
  apply bind_Ok_inv in H as (cmd' & w4 & _ & H).
  apply bind_Ok_inv in H as (pr & w5 & _ & H).
  apply bind_Ok_inv in H as (ex2 & w6 & _ & H).
  destruct ex2; [|inversion H; auto].
  apply bind_Ok_inv in H as (size & w7 & _ & H).
  destruct (Z.ltb 0 size); inversion H; auto.
Qed.

Lemma transcode_helper_rep tool env format overwrite threads flag (io : string * string)
  (w : world) r w' :
  transcode_helper tool env format overwrite threads flag io w = (Ok r, w') ->
  rep r ⊆+ [io.1].
Proof.
  destruct io as [i o]. intros H.
  destruct (transcode_helper_result _ _ _ _ _ _ _ _ _ _ _ H) as [Hr|[Hr|Hr]]; rewrite Hr.
  - change (rep ("skipped", i)) with [i]. done.
  - change (rep ("failed", i)) with [i]. done.
  - change (rep (EmptyString, EmptyString)) with (@nil string). apply submseteq_nil_l.
Qed.

Lemma rd_append_perm s p rd rd' :
  rd_append s p rd = Ok rd' ->
  (rd_failed rd' ++ rd_skipped rd' ≡ₚ (rd_failed rd ++ rd_skipped rd) ++ rep (s, p))%list.
Proof.
  unfold rd_append, rep. simpl.
  destruct (String.eqb_spec s "failed") as [->|Hf].
  { intros H. inversion H. simpl. rewrite <- !app_assoc. apply Permutation_app_head.
    apply Permutation_app_comm. }
  destruct (String.eqb_spec s "skipped") as [->|Hs].
  { intros H. inversion H. simpl. by rewrite <- app_assoc. }
  destruct (String.eqb s EmptyString); intros H; inversion H; simpl; by rewrite app_nil_r.
Qed.

Lemma collect_transcode_perm (rs : list (res (string * string))) :
  forall rd rd', collect_transcode rd rs = Ok rd' ->
  (rd_failed rd' ++ rd_skipped rd' ≡ₚ (rd_failed rd ++ rd_skipped rd) ++ concat (map rep_res rs))%list.
Proof.
  induction rs as [|r rs IH]; intros rd rd' H; simpl in *.
  - inversion H. by rewrite app_nil_r.
  - destruct r as [[s p]|e]; [|discriminate].
    destruct (rd_append s p rd) as [rd1|e] eqn:E; [|discriminate].
    rewrite (IH rd1 rd' H), (rd_append_perm _ _ _ _ E). simpl. by rewrite app_assoc.
Qed.

Lemma submit_all_results {A B} (f : A -> M B) (xs : list A) :
  forall w rs w', submit_all f xs w = (Ok rs, w') ->
  Forall2 (fun x r => forall y, r = Ok y -> exists w1 w2, f x w1 = (Ok y, w2)) xs rs.
Proof.
  induction xs as [|x xs IH]; intros w rs w' H; simpl in H.
  - unfold retM in H. inversion H. constructor.
  - apply bind_Ok_inv in H as (r & w1 & Hc & H).
    apply bind_Ok_inv in H as (rs' & w2 & Hs & H).
    unfold retM in H. inversion H. subst. constructor.
    + intros y ->. unfold capture in Hc. destruct (f x w) as [r' w1'] eqn:E.
      inversion Hc. subst. eauto.
    + eapply IH. exact Hs.
Qed.

Lemma rep_results_sub (xs : list (string * string)) (rs : list (res (string * string))) :
  Forall2 (fun x r => forall y, r = Ok y -> rep y ⊆+ [x.1]) xs rs ->
  concat (map rep_res rs) ⊆+ map fst xs.
Proof.
  induction 1 as [|x r xs rs Hxr _ IH]; simpl; [done|].
  apply (submseteq_app _ [x.1]); [|done].
  destruct r as [y|e]; simpl; [by apply Hxr|]. apply submseteq_nil_l.
Qed.

Lemma run_seq_sub (f : string * string -> M (string * string)) (pairs : list (string * string)) :
  (forall x w r w', f x w = (Ok r, w') -> rep r ⊆+ [x.1]) ->
  forall rd w rd' w', run_seq f rd pairs w = (Ok rd', w') ->
  (rd_failed rd' ++ rd_skipped rd' ⊆+ (rd_failed rd ++ rd_skipped rd) ++ map fst pairs)%list.
Proof.
  intros Hf. induction pairs as [|io pairs IH]; intros rd w rd' w' H; simpl in H.
  - unfold retM in H. inversion H. by rewrite app_nil_r.
  - apply bind_Ok_inv in H as ([s p] & w1 & H1 & H).
    apply bind_Ok_inv in H as (rd1 & w2 & H2 & H).
    apply liftR_Ok_world in H2 as [_ H2].
    rewrite (IH rd1 w2 rd' w' H), (rd_append_perm _ _ _ _ H2).
    pose proof (Hf io w (s, p) w1 H1) as Hr. simpl.
    rewrite <- app_assoc. apply submseteq_app; [done|].
    by apply (submseteq_app _ [io.1]).
Qed.

End ReportFacts.

Module ReportThm.
Import PyStr Sys Pipeline StrFacts Aux MFacts PathFacts PlanFacts QuietFacts SkipFacts VerdictFacts ReportFacts.

(** Every path [batch_transcode] reports, failed or skipped, is one of its
    inputs, and no input is reported more often than it occurs in
    [input_paths], whatever order the thread pool completes the tasks in. *)
Theorem batch_transcode_reports_inputs tool env (sched : forall A, list A -> list A)
  (inputs : list string) (format : string) (overwrite : bool) (threads : Z) (w : world)
  (failed skipped : list string) :
  (forall A (l : list A), sched A l ≡ₚ l) ->
  fst (batch_transcode tool env sched inputs format overwrite threads w) = Ok (failed, skipped) ->
  (failed ++ skipped ⊆+ inputs)%list.
Proof.
  intros Hsched H. unfold batch_transcode in H.
  destruct (Nat.eqb (length inputs) 0).
  { unfold retM in H. simpl in H. inversion H. subst. apply submseteq_nil_l. }
  cbv zeta in H.
  apply bind_fst_Ok in H as (outs & w1 & Hp & H).
  apply (f_equal fst) in Hp. cbn [fst] in Hp. apply plan_outputs_Ok in Hp. subst outs.
  rewrite combine_map_r in H.
  apply bind_fst_Ok in H as (rd & w2 & Hrd & H).
  unfold retM in H. simpl in H. inversion H. subst failed skipped. clear H.
  match type of Hrd with context [transcode_helper tool env format overwrite ?t ?fl] =>
    assert (Hh : forall x w r w', transcode_helper tool env format overwrite t fl x w = (Ok r, w') ->
                                  rep r ⊆+ [x.1])
      by (intros; eapply transcode_helper_rep; eauto) end.
  assert (Hfst : map fst (map (fun x => (x, derive_output x format format)) inputs) = inputs).
  { rewrite map_map. simpl. apply map_id. }
  destruct (Z.ltb 1 _) in Hrd.
  - apply bind_Ok_inv in Hrd as (rs & w3 & Hs & Hc). apply liftR_Ok_world in Hc as [_ Hc].
    rewrite (collect_transcode_perm _ _ _ Hc). simpl.
    apply submit_all_results in Hs.
    rewrite <- Hfst, <- (Hsched _ (map (fun x => (x, derive_output x format format)) inputs)).
    apply rep_results_sub. eapply Forall2_impl; [exact Hs|].
    intros x r Hxr y ->. destruct (Hxr y eq_refl) as (w4 & w5 & Hy). eauto.
  - rewrite (run_seq_sub _ _ Hh _ _ _ _ Hrd). simpl. by rewrite Hfst.
Qed.

End ReportThm.

Module ReportWit.
Import PyStr Sys Pipeline Aux ReportThm DirFacts.

Lemma batch_transcode_reports_inputs_witness :
  (["p/a.png"; "p/b.png"] ++ [] ⊆+ ["p/a.png"; "p/b.png"])%list.
Proof.
  apply (batch_transcode_reports_inputs (tool_script (mkProc 0 "" "") []) env_default in_order
           ["p/a.png"; "p/b.png"] "jxl" false 4 w_empty).
  - intros A l. reflexivity.
  - vm_compute. reflexivity.
Defined.

End ReportWit.

Module RaiseFacts.
Import PyStr PyNum Sys Pipeline StrFacts Aux MFacts ReportFacts.






End RaiseFacts.

Module RaiseFacts2.
Import PyStr PyNum Sys Pipeline StrFacts Aux MFacts PathFacts SkipFacts ReportFacts RaiseFacts.

Definition status_ok (y : string * string) : Prop :=
  y.1 = "skipped" \/ y.1 = "failed" \/ y.1 = EmptyString.

Lemma rd_append_Ok s p rd : status_ok (s, p) -> exists rd', rd_append s p rd = Ok rd'.
Proof.
  unfold status_ok, rd_append. simpl. intros [ -> | [ -> | -> ] ]; by eexists.
Qed.


Lemma submit_all_total {A B} (f : A -> M B) (xs : list A) (w : world) :
  exists rs w', submit_all f xs w = (Ok rs, w') /\
    Forall2 (fun x r => exists w1, r = fst (f x w1)) xs rs.
Proof.
  revert w; induction xs as [|x xs IH]; intros w; simpl.
  - by do 2 eexists.
  - unfold bindM at 1, capture. destruct (f x w) as [r w1] eqn:E.
    destruct (IH w1) as (rs & w' & Hs & Hall).
    unfold bindM. rewrite Hs. exists (r :: rs), w'. split; [done|].
    constructor; [|done]. exists w. by rewrite E.
Qed.



End RaiseFacts2.

Module RaiseThm.
Import PyStr PyNum Sys Pipeline StrFacts Aux Vocab MFacts PathFacts PlanFacts SkipFacts ReportFacts RaiseFacts RaiseFacts2.



End RaiseThm.

Module KeyThm.
Import PyStr PyNum Sys Pipeline StrFacts Aux Vocab MFacts PathFacts PlanFacts SkipFacts RaiseFacts2.





End KeyThm.

Module ShellFacts.
Import PyStr Pipeline StrFacts Aux Rest Vocab NormFacts SplitFacts IntFacts ListFacts DirFacts.















End ShellFacts.

Module CompressFacts.
Import PyStr Pipeline StrFacts Aux Rest Vocab NormFacts SplitFacts IntFacts ListFacts DirFacts ShellFacts.







End CompressFacts.

Module CompressThm.
Import PyStr Pipeline StrFacts Aux Rest Vocab NormFacts SplitFacts IntFacts ListFacts DirFacts ShellFacts CompressFacts.









End CompressThm.

Module ErrorFacts.
Import PyStr StrFacts Aux Rest SplitFacts DirFacts.

Lemma split_two c (a b : string) :
  no_char c a = true -> no_char c b = true ->
  split c (a +:+ String c EmptyString +:+ b) = [a; b].
Proof.
  intros Ha Hb.
  change (a +:+ String c EmptyString +:+ b) with (join (String c EmptyString) [a; b]).
  apply split_join; [done|]. by repeat constructor.
Qed.

Lemma split_two_inv c (s a b : string) :
  split c s = [a; b] -> s = a +:+ String c EmptyString +:+ b /\ no_char c b = true.
Proof.
  intros H. split.
  - pose proof (join_split_go c s EmptyString) as E. rewrite sapp_nil_l in E.
    unfold split in H. rewrite H in E. rewrite <- E. reflexivity.
  - pose proof (split_go_no_char c s EmptyString eq_refl) as F. unfold split in H.
    rewrite H in F. by inversion_clear F as [|? ? _ F'];
    inversion_clear F' as [|? ? Fb _].
Qed.

Lemma report_lines_props (g : string -> string) (m1 m2 : string) (f s : list string) :
  let lines :=
    ((if Nat.ltb 0 (length f) then m1 :: map g f else [])
     ++ (if Nat.ltb 0 (length s) then m2 :: map g s else []))%list in
  length lines =
    (match f with [] => 0 | _ => S (length f) end + match s with [] => 0 | _ => S (length s) end)%nat
  /\ sublist (map g (f ++ s)) lines.
Proof.
  cbv zeta. rewrite map_app. split.
  - rewrite length_app. destruct f, s; simpl; rewrite ?length_map; lia.
  - apply sublist_app.
    + destruct f as [|x f]; simpl; [apply sublist_nil_l | apply sublist_cons; reflexivity].
    + destruct s as [|x s]; simpl; [apply sublist_nil_l | apply sublist_cons; reflexivity].
Qed.

End ErrorFacts.

Module ErrorThm.
Import PyStr StrFacts Aux Rest SplitFacts DirFacts ErrorFacts.

(** [__handle_error] accepts exactly the commands [transcode_<format>] and
    [resize_<format>] with no further underscore in [<format>]; on every
    other command it raises [ValueError], and it raises nothing else. *)
Theorem handle_error_accepts (cmd : string) (failed skipped : list string) :
  ((exists lines, handle_error cmd failed skipped = Ok lines) <->
   exists t fmt, (t = "transcode" \/ t = "resize") /\ no_char "_"%char fmt = true /\
                 cmd = t +:+ "_" +:+ fmt)
  /\ forall e, handle_error cmd failed skipped = Raise e -> e = "ValueError".
Proof.
  split; [split|].
  - intros [lines H]. unfold handle_error in H.
    destruct (split "_"%char cmd) as [|a [|b [|c l]]] eqn:Es; try discriminate.
    apply split_two_inv in Es as [-> Hb]. exists a, b.
    destruct (String.eqb a "transcode") eqn:E1.
    { apply String.eqb_eq in E1. auto. }
    destruct (String.eqb a "resize") eqn:E2.
    { apply String.eqb_eq in E2. auto. }
    discriminate.
  - intros (t & fmt & Ht & Hf & ->). unfold handle_error.
    rewrite split_two by (done || (destruct Ht as [-> | ->]; reflexivity)).
    destruct Ht as [-> | ->]; eexists; reflexivity.
  - intros e H. unfold handle_error in H.
    destruct (split "_"%char cmd) as [|a [|b [|c l]]];
      try (injection H as <-; reflexivity).
    destruct (String.eqb a "transcode"), (String.eqb a "resize"); simpl in H;
      first [discriminate | injection H as <-; reflexivity].
Qed.

(** For an accepted command, [__handle_error] prints a header line and one
    line per image for the failed list when it is not empty, the same for
    the skipped list, and nothing else: every failed and every skipped image
    appears, indented by four spaces, in the order of the lists. *)
Theorem handle_error_lines (t fmt : string) (failed skipped : list string) :
  t = "transcode" \/ t = "resize" -> no_char "_"%char fmt = true ->
  exists lines, handle_error (t +:+ "_" +:+ fmt) failed skipped = Ok lines
  /\ length lines =
     (match failed with [] => 0 | _ => S (length failed) end
      + match skipped with [] => 0 | _ => S (length skipped) end)%nat
  /\ sublist (map (fun i => "    " +:+ i) (failed ++ skipped)) lines.
Proof.
  intros Ht Hf. unfold handle_error.
  rewrite split_two by (done || (destruct Ht as [-> | ->]; reflexivity)).
  destruct Ht as [-> | ->]; eexists; (split; [reflexivity|]);
    exact (report_lines_props _ _ _ failed skipped).
Qed.

Lemma handle_error_lines_witness :
  exists lines, handle_error ("resize" +:+ "_" +:+ "") ["a.png"; "b.png"] [] = Ok lines
  /\ length lines = (3 + 0)%nat
  /\ sublist (map (fun i => "    " +:+ i) (["a.png"; "b.png"] ++ [])) lines.
Proof.
  apply (handle_error_lines "resize" "" ["a.png"; "b.png"] []).
  - right. reflexivity.
  - reflexivity.
Defined.

End ErrorThm.

Module BlurFacts.
Import PyStr Sys Pipeline StrFacts Aux MFacts Rest ReportFacts RaiseFacts2.

(** A helper result that respects the [failed] convention: a failed image
    carries three empty strings. *)
Definition failed_blank (r : res (string * string * list string)) : Prop :=
  forall st f d, r = Ok (st, f, d) -> st = "failed" -> d = [EmptyString; EmptyString; EmptyString].

(** What [failed] and [final_data] hold after the zip files [zs]: the failed
    entries are [os.path.join(z, "")] for one of them, the keys are among them. *)
Definition blur_inv (zs : list string) (failed : list string) (final : final_map) : Prop :=
  Forall (fun f => exists z, z ∈ zs /\ f = path_join z EmptyString) failed /\
  forall z m, final !! z = Some m -> z ∈ zs.

Lemma blurhash_helper_blank tool tp zf file w :
  failed_blank (fst (blurhash_helper tool tp zf file w)).
Proof.
  intros st f d Hr Hst. unfold blurhash_helper in Hr.
  destruct (negb (endswith_any file blurhash_exts)).
  { injection Hr as <- _ _. discriminate. }
  apply bind_fst_Ok in Hr as ([width height] & w1 & _ & Hr).
  apply bind_fst_Ok in Hr as (p & w2 & _ & Hr).
  destruct (negb (Z.eqb (returncode p) 0)).
  - by injection Hr as _ _ <-.
  - injection Hr as <- _ _. discriminate.
Qed.

Lemma submit_all_blank tool tp zf (xs : list string) w rs w' :
  submit_all (blurhash_helper tool tp zf) xs w = (Ok rs, w') -> Forall failed_blank rs.
Proof.
  intros H. destruct (submit_all_total (blurhash_helper tool tp zf) xs w) as (rs' & w'' & H' & Hall).
  rewrite H in H'. injection H' as <- _. clear H.
  induction Hall as [|x r xs rs [w1 ->] _ IH]; constructor; [|done].
  apply blurhash_helper_blank.
Qed.

Lemma collect_blurhash_inv zs zp (rs : list (res (string * string * list string))) :
  zp ∈ zs -> Forall failed_blank rs ->
  forall failed final failed' final',
  blur_inv zs failed final ->
  collect_blurhash zp failed final rs = Ok (failed', final') -> blur_inv zs failed' final'.
Proof.
  intros Hz Hrs. induction Hrs as [|r rs Hr _ IH]; intros failed final failed' final' [Hf Hk] H.
  - injection H as <- <-. by split.
  - destruct r as [[[st f] d]|e]; [|discriminate]. simpl in H.
    destruct (String.eqb st "failed") eqn:E1.
    + apply String.eqb_eq in E1. rewrite (Hr st f d eq_refl E1) in H.
      eapply IH; [|exact H]. split; [|exact Hk].
      apply Forall_app. split; [done|]. constructor; [|constructor]. by exists zp.
    + destruct (String.eqb st "success").
      * eapply IH; [|exact H]. split; [exact Hf|].
        intros z m Hm. apply lookup_insert_Some in Hm as [[<- _]|[_ Hm]]; [done|].
        by apply (Hk z m).
      * eapply IH; [|exact H]. by split.
Qed.

Lemma blurhash_zips_inv tool sched unpack tp zs (zips : list string) :
  (forall z, z ∈ zips -> z ∈ zs) ->
  forall failed final w failed' final',
  blur_inv zs failed final ->
  fst (blurhash_zips tool sched unpack tp zips failed final w) = Ok (failed', final') ->
  blur_inv zs failed' final'.
Proof.
  induction zips as [|zp zips IH]; intros Hzs failed final w failed' final' Hinv H.
  - simpl in H. injection H as <- <-. done.
  - simpl in H.
    apply bind_fst_Ok in H as (files & w1 & _ & H).
    apply bind_fst_Ok in H as (rs & w2 & Hsub & H).
    apply bind_fst_Ok in H as ([fa fi] & w3 & Hc & H).
    apply bind_fst_Ok in H as (u & w4 & _ & H).
    destruct (collect_blurhash zp failed final rs) as [[fa' fi']|e] eqn:Ec; [|discriminate].
    injection Hc as <- <- <-.
    apply (IH (fun z Hz => Hzs z (proj2 (elem_of_cons _ _ _) (or_intror Hz))) fa' fi' w4); [|exact H].
    apply (collect_blurhash_inv zs zp rs (Hzs zp (proj2 (elem_of_cons _ _ _) (or_introl eq_refl)))
             (submit_all_blank _ _ _ _ _ _ _ Hsub) failed final); [exact Hinv|exact Ec].
Qed.

End BlurFacts.

Module BlurThm.
Import PyStr Sys Pipeline StrFacts Aux MFacts Rest BlurFacts.

(** When [batch_calculate_blurhash] returns, every entry of its failed list
    is [os.path.join(zip_path, "")] for one of the input zip files: the
    name of the image that failed is not in it, since the helper reports a
    failure with [data = ["", "", ""]] and the loop joins [data[0]].  Every
    key of [final_data] is one of the input zip files. *)
Theorem batch_calculate_blurhash_failed tool sched unpack (zips : list string) (w : world)
  (failed : list string) (final : final_map) :
  fst (batch_calculate_blurhash tool sched unpack zips w) = Ok (failed, final) ->
  Forall (fun f => exists z, z ∈ zips /\ f = path_join z EmptyString) failed /\
  (forall z m, final !! z = Some m -> z ∈ zips).
Proof.
  intros H. apply (blurhash_zips_inv tool sched unpack "blurhash_temp" zips zips
                     (fun z Hz => Hz) [] ∅ w); [|exact H].
  split; [constructor|]. intros z m Hm. by rewrite lookup_empty in Hm.
Qed.

Lemma batch_calculate_blurhash_failed_witness :
  Forall (fun f => exists z, z ∈ ["z.zip"] /\ f = path_join z EmptyString) ["z.zip/"] /\
  (forall z m, (∅ : final_map) !! z = Some m -> z ∈ ["z.zip"]).
Proof.
  apply (batch_calculate_blurhash_failed
           (tool_script (mkProc 0 "16x16" "") [("blurhash-cli", 1%Z, [])]) in_order
           (fun _ _ w => (Ok ["blurhash_temp/a.png"],
                          mkWorld (w_files w) ({[ "blurhash_temp" ]} ∪ w_dirs w) (w_trace w)))
           ["z.zip"] w_empty).
  vm_compute. reflexivity.
Defined.

End BlurThm.

Module PropagateFacts.
Import PyStr Sys Pipeline Aux MFacts ReportFacts RaiseFacts2.

(** The first exception among task results, in the order given. *)
Fixpoint first_raise {A} (rs : list (res A)) : option string :=
  match rs with
  | [] => None
  | Ok _ :: rs' => first_raise rs'
  | Raise e :: _ => Some e
  end.

Lemma run_seq_raise f rd pre io post (w w1 w2 : world) rd1 e :
  run_seq f rd pre w = (Ok rd1, w1) -> f io w1 = (Raise e, w2) ->
  run_seq f rd (pre ++ io :: post) w = (Raise e, w2).
Proof.
  revert rd w; induction pre as [|io' pre IH]; intros rd w Hpre Hio.
  - simpl in Hpre. injection Hpre as <- <-. simpl. unfold bindM. by rewrite Hio.
  - simpl in *. unfold bindM in *.
    destruct (f io' w) as [[[status path]|e'] w'] eqn:E; [|discriminate].
    destruct (liftR (rd_append status path rd) w') as [[rd'|e'] w''] eqn:E2; [|discriminate].
    by apply (IH rd' w'').
Qed.

Lemma submit_all_status tool env format overwrite thr flag
  (xs : list (string * string)) (w : world) rs w' :
  submit_all (transcode_helper tool env format overwrite thr flag) xs w = (Ok rs, w') ->
  Forall (fun r => forall y, r = Ok y -> status_ok y) rs.
Proof.
  intros H. apply submit_all_results in H.
  induction H as [|[i o] r xs rs Hxr _ IH]; constructor; [|done].
  intros y ->. destruct (Hxr y eq_refl) as (w1 & w2 & Hy).
  destruct (transcode_helper_result _ _ _ _ _ _ _ _ _ _ _ Hy) as [ -> | [ -> | -> ] ];
    unfold status_ok; simpl; auto.
Qed.

Lemma collect_transcode_first rd (rs : list (res (string * string))) e :
  Forall (fun r => forall y, r = Ok y -> status_ok y) rs ->
  first_raise rs = Some e -> collect_transcode rd rs = Raise e.
Proof.
  intros Hall. revert rd. induction Hall as [|r rs Hr _ IH]; intros rd He; [discriminate|].
  destruct r as [[s p]|e']; simpl in He |- *.
  - destruct (rd_append_Ok s p rd (Hr _ eq_refl)) as [rd1 ->]. by apply IH.
  - by injection He as ->.
Qed.

Lemma collect_resize_first failed (rs : list (res (bool * string))) e :
  first_raise rs = Some e -> collect_resize failed rs = Raise e.
Proof.
  revert failed; induction rs as [|r rs IH]; intros failed He; [discriminate|].
  destruct r as [[ok msg]|e']; simpl in He |- *.
  - destruct ok; by apply IH.
  - by injection He as ->.
Qed.

End PropagateFacts.

Module PropagateThm.
Import PyStr Sys Pipeline Aux MFacts ReportFacts RaiseFacts2 PropagateFacts.

(** C3 (amended). No exception of a task is caught. In the thread-pool
    paths of [batch_transcode] and [batch_resize] every task runs, then the
    batch raises the first exception among the results, in the order the
    pool yields them, and returns no report; in the sequential path of
    [batch_transcode] the exception of an item propagates at once, and the
    later items are not attempted. *)
Theorem batch_exception_propagates tool env (sched : forall A, list A -> list A) :
  (forall inputs format overwrite threads w outs w1 rs w2 e,
     let thr := if String.eqb format "avif" || String.eqb format "mp4" then 1%Z else threads in
     let helper := transcode_helper tool env format overwrite thr
                     (if overwrite then " -y" else "") in
     inputs <> [] -> (1 < thr)%Z ->
     plan_outputs format format inputs w = (Ok outs, w1) ->
     submit_all helper (sched _ (combine inputs outs)) w1 = (Ok rs, w2) ->
     first_raise rs = Some e ->
     batch_transcode tool env sched inputs format overwrite threads w = (Raise e, w2)) /\
  (forall inputs threads tw th w outs w1 rs w2 e,
     inputs <> [] -> (0 < threads)%Z ->
     plan_outputs "upscaled" "png" inputs w = (Ok outs, w1) ->
     submit_all (resize_helper tool env tw th) (sched _ (combine inputs outs)) w1 = (Ok rs, w2) ->
     first_raise rs = Some e ->
     batch_resize tool env sched inputs threads tw th w = (Raise e, w2)) /\
  (forall inputs format overwrite threads w outs w1 pre io post rd1 w2 e w3,
     let thr := if String.eqb format "avif" || String.eqb format "mp4" then 1%Z else threads in
     let helper := transcode_helper tool env format overwrite thr
                     (if overwrite then " -y" else "") in
     inputs <> [] -> (thr <= 1)%Z ->
     plan_outputs format format inputs w = (Ok outs, w1) ->
     combine inputs outs = (pre ++ io :: post)%list ->
     run_seq helper rd_empty pre w1 = (Ok rd1, w2) ->
     helper io w2 = (Raise e, w3) ->
     batch_transcode tool env sched inputs format overwrite threads w = (Raise e, w3)).
Proof.
  split; [|split].
  - intros inputs format overwrite threads w outs w1 rs w2 e. cbv zeta.
    intros Hne Hthr Hp Hs He. unfold batch_transcode.
    destruct (Nat.eqb_spec (length inputs) 0) as [E|_]; [by destruct inputs|]. cbv zeta.
    rewrite (bind_Ok _ _ _ _ _ Hp), (proj2 (Z.ltb_lt _ _) Hthr).
    unfold bindM. rewrite Hs. unfold liftR.
    rewrite (collect_transcode_first rd_empty rs e (submit_all_status _ _ _ _ _ _ _ _ _ _ Hs) He).
    reflexivity.
  - intros inputs threads tw th w outs w1 rs w2 e Hne Hthr Hp Hs He.
    destruct inputs as [|p ps]; [done|]. unfold batch_resize.
    rewrite (bind_Ok _ _ _ _ _ Hp). rewrite (proj2 (Z.leb_gt _ _) Hthr).
    rewrite (bind_Ok _ _ _ _ _ Hs). unfold bindM, liftR.
    rewrite (collect_resize_first [] rs e He). reflexivity.
  - intros inputs format overwrite threads w outs w1 pre io post rd1 w2 e w3. cbv zeta.
    intros Hne Hthr Hp Hc Hpre Hio. unfold batch_transcode.
    destruct (Nat.eqb_spec (length inputs) 0) as [E|_]; [by destruct inputs|]. cbv zeta.
    rewrite (bind_Ok _ _ _ _ _ Hp), (proj2 (Z.ltb_ge _ _) Hthr), Hc.
    apply bind_Raise. exact (run_seq_raise _ _ _ _ _ _ _ _ _ _ Hpre Hio).
Qed.

Lemma batch_exception_propagates_witness :
  fst (batch_transcode (tool_script (mkProc 0 "" "") []) env_default in_order ["p/a.png"; "p/b.png"] "webp" false 4 w_empty)
  = Raise "KeyError" /\
  fst (batch_resize (tool_script (mkProc 0 "100x100" "") []) env_default in_order ["p/b.png"; "p/a.png"] 4 250 0
         (mkWorld {[ "p_upscaled/b.png" := 7%Z ]} {[ "p_upscaled" ]} []))
  = Raise "FileNotFoundError" /\
  fst (batch_transcode (tool_script (mkProc 0 "" "") []) env_default in_order ["p/a.png"; "p/b.png"; "p/c.png"] "webp" false 1
         (mkWorld {[ "p_webp/a.webp" := 5%Z ]} {[ "p_webp" ]} []))
  = Raise "KeyError".
Proof.
  destruct (batch_exception_propagates (tool_script (mkProc 0 "" "") []) env_default in_order)
    as [P1 [_ P3]].
  pose proof (proj1 (proj2 (batch_exception_propagates (tool_script (mkProc 0 "100x100" "") []) env_default in_order)))
    as P2.
  split; [|split].
  - rewrite (P1 ["p/a.png"; "p/b.png"] "webp" false 4%Z w_empty
               ["p_webp/a.webp"; "p_webp/b.webp"]
               (snd (plan_outputs "webp" "webp" ["p/a.png"; "p/b.png"] w_empty))
               [Raise "KeyError"; Raise "KeyError"]
               (snd (submit_all (transcode_helper (tool_script (mkProc 0 "" "") []) env_default "webp" false 4%Z "")
                       [("p/a.png", "p_webp/a.webp"); ("p/b.png", "p_webp/b.webp")]
                       (snd (plan_outputs "webp" "webp" ["p/a.png"; "p/b.png"] w_empty))))
               "KeyError");
      [reflexivity|discriminate|vm_compute; reflexivity|vm_compute; reflexivity
      |vm_compute; reflexivity|reflexivity].
  - rewrite (P2 ["p/b.png"; "p/a.png"] 4%Z 250%Z 0%Z
               (mkWorld {[ "p_upscaled/b.png" := 7%Z ]} {[ "p_upscaled" ]} [])
               ["p_upscaled/b.png"; "p_upscaled/a.png"]
               (snd (plan_outputs "upscaled" "png" ["p/b.png"; "p/a.png"]
                       (mkWorld {[ "p_upscaled/b.png" := 7%Z ]} {[ "p_upscaled" ]} [])))
               [Ok (true, ""); Raise "FileNotFoundError"]
               (snd (submit_all (resize_helper (tool_script (mkProc 0 "100x100" "") []) env_default 250%Z 0%Z)
                       [("p/b.png", "p_upscaled/b.png"); ("p/a.png", "p_upscaled/a.png")]
                       (snd (plan_outputs "upscaled" "png" ["p/b.png"; "p/a.png"]
                               (mkWorld {[ "p_upscaled/b.png" := 7%Z ]} {[ "p_upscaled" ]} [])))))
               "FileNotFoundError");
      [reflexivity|discriminate|lia|vm_compute; reflexivity|vm_compute; reflexivity
      |reflexivity].
  - rewrite (P3 ["p/a.png"; "p/b.png"; "p/c.png"] "webp" false 1%Z
               (mkWorld {[ "p_webp/a.webp" := 5%Z ]} {[ "p_webp" ]} [])
               ["p_webp/a.webp"; "p_webp/b.webp"; "p_webp/c.webp"]
               (snd (plan_outputs "webp" "webp" ["p/a.png"; "p/b.png"; "p/c.png"]
                       (mkWorld {[ "p_webp/a.webp" := 5%Z ]} {[ "p_webp" ]} [])))
               [("p/a.png", "p_webp/a.webp")] ("p/b.png", "p_webp/b.webp")
               [("p/c.png", "p_webp/c.webp")]
               (mkRD [] ["p/a.png"] [])
               (snd (run_seq (transcode_helper (tool_script (mkProc 0 "" "") []) env_default "webp" false 1%Z "") rd_empty
                       [("p/a.png", "p_webp/a.webp")]
                       (snd (plan_outputs "webp" "webp" ["p/a.png"; "p/b.png"; "p/c.png"]
                               (mkWorld {[ "p_webp/a.webp" := 5%Z ]} {[ "p_webp" ]} [])))))
               "KeyError"
               (snd (transcode_helper (tool_script (mkProc 0 "" "") []) env_default "webp" false 1%Z "" ("p/b.png", "p_webp/b.webp")
                       (snd (run_seq (transcode_helper (tool_script (mkProc 0 "" "") []) env_default "webp" false 1%Z "") rd_empty
                               [("p/a.png", "p_webp/a.webp")]
                               (snd (plan_outputs "webp" "webp" ["p/a.png"; "p/b.png"; "p/c.png"]
                                       (mkWorld {[ "p_webp/a.webp" := 5%Z ]} {[ "p_webp" ]} []))))))));
      [reflexivity|discriminate|vm_compute; discriminate|vm_compute; reflexivity|reflexivity
      |vm_compute; reflexivity|vm_compute; reflexivity].
Defined.

End PropagateThm.
